(** * gosdk: transaction submission and verification core

  A shallow embedding of [zcncore]'s transaction handle (the file that
  declares [Transaction], [Verify], [validateChain], ...) and of
  [core/zcncrypto/zcncrypto.go].

  Conventions.
  - Go's [int64] and [int] are [Z]; arithmetic that can leave the 64-bit
    range is written with the wrap-around of [Int64].
  - Go's [float32] is IEEE 754 binary32: the floating-point numbers of
    [SpecFloat] with a precision of 24 bits and a maximal exponent of 128,
    every operation rounded to nearest, ties to even.
  - A Go [error] is [option string]: [None] is [nil], [Some m] is an error
    whose [Error()] is [m].
  - A Go [map[string]json.RawMessage] is a [gmap string string].
  - Network, clock, sleeping and callbacks are effects on a [world]: an
    oracle indexed by a tick answers every query, and every effect is
    appended to the world's trace.
  - Collaborators that live outside the two files (the hash function, the
    Merkle verifier, the JSON codec, configuration getters and constants)
    are the fields of the classes [Externals] and [Miners]. *)

From Stdlib Require Import ZArith String Ascii List Bool Lia DecimalString.
From Stdlib Require SpecFloat.
From stdpp Require Import gmap strings.

Local Open Scope Z_scope.
Local Open Scope string_scope.

(** ** Machine integers *)

Module Int64.

Definition min_int : Z := - 2 ^ 63.
Definition max_int : Z := 2 ^ 63 - 1.

Definition in_range (z : Z) : Prop := min_int <= z <= max_int.

(** Two's complement wrap-around of a mathematical integer. *)
Definition wrap (z : Z) : Z := (z + 2 ^ 63) mod 2 ^ 64 - 2 ^ 63.

Definition add (a b : Z) : Z := wrap (a + b).
Definition sub (a b : Z) : Z := wrap (a - b).

End Int64.

(** ** Machine floats *)

Module float32.

Definition t : Type := SpecFloat.spec_float.

Definition prec : Z := 24.
Definition emax : Z := 128.

(** The conversion [float32(n)] of an integer. *)
Definition of_int (n : Z) : t := SpecFloat.binary_normalize prec emax n 0 false.

Definition add (x y : t) : t := SpecFloat.SFadd prec emax x y.
Definition mul (x y : t) : t := SpecFloat.SFmul prec emax x y.
Definition div (x y : t) : t := SpecFloat.SFdiv prec emax x y.

(** [x < y]: false as soon as one side is not a number. *)
Definition ltb (x y : t) : bool := SpecFloat.SFltb x y.

End float32.

(** ** Text formatting: [fmt.Sprintf] with the verbs the code uses *)

Module fmt.

Inductive operand : Type :=
| OString (s : string)
| OInt64 (z : Z).

(** [%v] of an integer is its decimal numeral, of a string the string. *)
Definition decimal (z : Z) : string := NilZero.string_of_int (Z.to_int z).

Definition verb_v (a : operand) : string :=
  match a with
  | OString s => s
  | OInt64 z => decimal z
  end.

(** [%s] of an operand that is not a string is reported in the output. *)
Definition verb_s (a : operand) : string :=
  match a with
  | OString s => s
  | OInt64 z => "%!s(int64=" +:+ decimal z +:+ ")"
  end.

Definition type_name (a : operand) : string :=
  match a with
  | OString _ => "string"
  | OInt64 _ => "int64"
  end.

Fixpoint extra_list (args : list operand) : string :=
  match args with
  | [] => ""
  | [a] => type_name a +:+ "=" +:+ verb_v a
  | a :: rest => type_name a +:+ "=" +:+ verb_v a +:+ ", " +:+ extra_list rest
  end.

(** Operands left over once the format is consumed. *)
Definition extra (args : list operand) : string :=
  match args with
  | [] => ""
  | _ => "%!(EXTRA " +:+ extra_list args +:+ ")"
  end.

Fixpoint Sprintf (format : string) (args : list operand) : string :=
  match format with
  | EmptyString => extra args
  | String "%" (String "v" rest) =>
      match args with
      | a :: args' => verb_v a +:+ Sprintf rest args'
      | [] => "%!v(MISSING)" +:+ Sprintf rest []
      end
  | String "%" (String "s" rest) =>
      match args with
      | a :: args' => verb_s a +:+ Sprintf rest args'
      | [] => "%!s(MISSING)" +:+ Sprintf rest []
      end
  | String c rest => String c (Sprintf rest args)
  end.

End fmt.

(** ** Results of calls that can panic *)

Inductive go_result (A : Type) : Type :=
| Returned (a : A)
| Panicked (msg : string).
Arguments Returned {A} a.
Arguments Panicked {A} msg.

(** The runtime's message for a method call or field access through [nil]. *)
Definition nil_dereference : string :=
  "runtime error: invalid memory address or nil pointer dereference".

(** ** core/zcncrypto *)

Module zcncrypto.

(** The two implementations of the [SignatureScheme] interface; their
    constructors are declared in other files of the package. *)
Inductive SignatureScheme : Type :=
| ED255190chainScheme
| BLS0ChainScheme.

Definition NewED255190chainScheme : SignatureScheme := ED255190chainScheme.
Definition NewBLS0ChainScheme : SignatureScheme := BLS0ChainScheme.

Definition NewSignatureScheme (sigScheme : string) : go_result SignatureScheme :=
  if String.eqb sigScheme "ed25519" then Returned NewED255190chainScheme
  else if String.eqb sigScheme "bls0chain" then Returned NewBLS0ChainScheme
  else Panicked (fmt.Sprintf "unknown signature scheme: %v" [fmt.OString sigScheme]).

End zcncrypto.

(** ** Data declared in the collaborating packages *)

Module util.

(** [util.MTPath]: a Merkle path; only handed on to [VerifyMerklePath]. *)
Record MTPath : Type := {
  Nodes : list string;
  LeafIndex : Z
}.

(** [util.GetResponse]: what one sharder answered. *)
Record GetResponse : Type := {
  Url : string;
  Status : string;
  StatusCode : Z;
  Body : string
}.

End util.

(** [util.PostResponse]: what one miner answered. *)
Module PostResponse.

Record t : Type := {
  Url : string;
  Status : string;
  StatusCode : Z;
  Body : string
}.

End PostResponse.

Module http.
Definition StatusOK : Z := 200.
End http.

Module transaction.

(** [transaction.Transaction]: the transaction entity the handle owns. *)
Record Transaction : Type := {
  Hash : string;
  Signature : string;
  ClientID : string;
  PublicKey : string;
  ToClientID : string;
  ChainID : string;
  TransactionType : Z;
  TransactionData : string;
  Value : Z;
  TransactionFee : Z;
  CreationDate : Z
}.

Definition set_TransactionFee (txnFee : Z) (e : Transaction) : Transaction :=
  {| Hash := Hash e; Signature := Signature e; ClientID := ClientID e;
     PublicKey := PublicKey e; ToClientID := ToClientID e; ChainID := ChainID e;
     TransactionType := TransactionType e; TransactionData := TransactionData e;
     Value := Value e; TransactionFee := txnFee; CreationDate := CreationDate e |}.

Definition set_CreationDate (d : Z) (e : Transaction) : Transaction :=
  {| Hash := Hash e; Signature := Signature e; ClientID := ClientID e;
     PublicKey := PublicKey e; ToClientID := ToClientID e; ChainID := ChainID e;
     TransactionType := TransactionType e; TransactionData := TransactionData e;
     Value := Value e; TransactionFee := TransactionFee e; CreationDate := d |}.

End transaction.

(** ** Data declared in the transaction file *)

(** [confirmation]: pointer fields are options, [None] being [nil]. *)
Module confirmation.
Record t : Type := {
  Version : string;
  Hash : string;
  BlockHash : string;
  PreviousBlockHash : string;
  Transaction : option transaction.Transaction;
  CreationDate : Z;
  MinerID : string;
  Round : Z;
  Status : Z;
  RoundRandomSeed : Z;
  MerkleTreeRoot : string;
  MerkleTreePath : option util.MTPath;
  ReceiptMerkleTreeRoot : string;
  ReceiptMerkleTreePath : option util.MTPath
}.
End confirmation.

Module blockHeader.
Record t : Type := {
  Version : string;
  CreationDate : Z;
  Hash : string;
  MinerId : string;
  Round : Z;
  RoundRandomSeed : Z;
  MerkleTreeRoot : string;
  StateHash : string;
  ReceiptMerkleTreeRoot : string;
  NumTxns : Z
}.

(** [&blockHeader{}]: every field at its zero value. *)
Definition zero : t :=
  {| Version := ""; CreationDate := 0; Hash := ""; MinerId := ""; Round := 0;
     RoundRandomSeed := 0; MerkleTreeRoot := ""; StateHash := "";
     ReceiptMerkleTreeRoot := ""; NumTxns := 0 |}.
End blockHeader.

(** A [TransactionCallback] is an object of the caller; the model keeps its
    identity and records each call made on it. *)
Definition TransactionCallback : Type := nat.

(** The handle. [txn] is a pointer in the code; both constructors allocate
    the entity, so it is kept here as the entity itself. *)
Record Transaction : Type := {
  txn : transaction.Transaction;
  txnOut : string;
  txnHash : string;
  txnStatus : Z;
  txnError : option string;
  txnCb : option TransactionCallback;
  verifyStatus : Z;
  verifyOut : string;
  verifyError : option string
}.

(** A value or an error, for the [(T, error)] results. *)
Inductive or_error (A : Type) : Type :=
| Ok (a : A)
| Err (msg : string).
Arguments Ok {A} a.
Arguments Err {A} msg.

(** ** The outside world *)

Inductive event : Type :=
| EQuery (numSharders : Z) (query : string)
| EPost (miners : list string)
| ENow
| ESleep (nanoseconds : Z)
| EOnTransactionComplete (cb : TransactionCallback) (status : Z)
| EOnVerifyComplete (cb : TransactionCallback) (status : Z).

Record world : Type := {
  tick : nat;
  trace : list event
}.

Definition advance (e : event) (w : world) : world :=
  {| tick := S (tick w); trace := trace w ++ [e] |}.

(** How a computation in the world ends: with a value, with a panic, or not
    at all ([Pending]: it waits for an answer that does not come, or the
    fuel given to a loop ran out). Each case keeps the world it reached. *)
Inductive outcome (A : Type) : Type :=
| Ret (a : A) (w : world)
| Panic (msg : string) (w : world)
| Pending (w : world).
Arguments Ret {A} a w.
Arguments Panic {A} msg w.
Arguments Pending {A} w.

Definition M (A : Type) : Type := world -> outcome A.

Definition ret {A} (a : A) : M A := fun w => Ret a w.

Definition bind {A B} (c : M A) (k : A -> M B) : M B :=
  fun w =>
    match c w with
    | Ret a w' => k a w'
    | Panic msg w' => Panic msg w'
    | Pending w' => Pending w'
    end.

Definition panic {A} (msg : string) : M A := fun w => Panic msg w.
Definition pending {A} : M A := fun w => Pending w.
Definition emit (e : event) : M unit := fun w => Ret tt (advance e w).

Definition final_world {A} (o : outcome A) : world :=
  match o with
  | Ret _ w => w
  | Panic _ w => w
  | Pending w => w
  end.

Notation "x <- c ;; k" := (bind c (fun x => k))
  (at level 20, c at level 99, k at level 200).
Notation "c ;; k" := (bind c (fun _ => k))
  (at level 100, k at level 200, right associativity).

(** A computation only adds to the trace. *)
Definition appends {A : Type} (c : M A) : Prop :=
  forall w, exists evs, trace (final_world (c w)) = (trace w ++ evs)%list.

(** Everything the transaction file takes from elsewhere. *)
Class Externals : Type := {
  (** constants and configuration getters of the other files of [zcncore] *)
  StatusUnknown : Z;
  StatusSuccess : Z;
  StatusError : Z;
  TXN_VERIFY_URL : string;
  GET_BLOCK_INFO : string;
  defaultTxnExpirationSeconds : Z;
  defaultWaitSeconds : Z;
  getMinShardersVerify : Z;
  getMinRequiredChainLength : Z;
  (** [encryption.Hash], [encryption.FastHash] *)
  encryption_Hash : string -> string;
  encryption_FastHash : string -> string;
  (** [util.VerifyMerklePath] *)
  VerifyMerklePath : string -> option util.MTPath -> string -> bool;
  (** [transaction.NewTransactionReceipt(txn).GetHash()] *)
  receipt_GetHash : transaction.Transaction -> string;
  (** [json.Unmarshal] into a [map[string]json.RawMessage] *)
  json_Unmarshal_object : string -> or_error (gmap string string);
  (** [json.Unmarshal] into a [map[string]json.RawMessage] that holds
      entries already: the map as the call leaves it, or the error *)
  json_Unmarshal_object_into : string -> gmap string string -> or_error (gmap string string);
  (** [json.Unmarshal] into a [confirmation] *)
  json_Unmarshal_confirmation : string -> or_error confirmation.t;
  (** [json.Unmarshal] into an existing [blockHeader]: the header as the
      call leaves it, and the error if any *)
  json_Unmarshal_blockHeader : string -> blockHeader.t -> blockHeader.t * option string;
  (** [json.Unmarshal] into a [map[string]interface{}], read at ["hash"]:
      an error, or the string found there if there is one *)
  json_Unmarshal_entity_hash : string -> or_error (option string);
  (** [json.Marshal] of a [map[string]json.RawMessage] *)
  json_Marshal_object : option (gmap string string) -> or_error string;
  (** the answers that reach the result channel, in order of arrival, for
      the query issued at a tick to a number of randomly chosen sharders *)
  sharders_reply : nat -> Z -> string -> list util.GetResponse;
  (** [common.Now()] at a tick *)
  common_Now : nat -> Z
}.

(** What the broadcast of a transaction takes from elsewhere. *)
Class Miners : Type := {
  (** the constant [consensusThresh] *)
  consensusThresh : float32.t;
  (** [txn.ComputeHashAndSign(signFn)]: the entity as the call leaves it,
      and the error if any *)
  transaction_ComputeHashAndSign :
    transaction.Transaction -> transaction.Transaction * option string;
  (** [util.GetRandom(_config.chain.Miners, getMinMinersSubmit())] at a tick *)
  util_GetRandom_miners : nat -> list string;
  (** what reaches the result channel, in order of arrival, for the entity
      posted at a tick to these miners: pointers to responses, [None] being
      [nil] *)
  miners_reply :
    nat -> list string -> transaction.Transaction -> list (option PostResponse.t)
}.

(** ** The transaction file *)

Section Model.

Context `{Externals}.

(** *** Effects *)

(** [queryFromSharders] sends the query to [numSharders] sharders picked at
    random; the answers are what the world delivers for it. *)
Definition queryFromSharders (numSharders : Z) (query : string)
  : M (list util.GetResponse) :=
  fun w =>
    Ret (sharders_reply (tick w) numSharders query)
        (advance (EQuery numSharders query) w).

Definition Now : M Z :=
  fun w => Ret (common_Now (tick w)) (advance ENow w).

Definition Sleep (nanoseconds : Z) : M unit := emit (ESleep nanoseconds).

Definition Second : Z := 1000000000.

(** The loop [for i := 0; i < numSharders; i++ { rsp := <-result ... }]:
    it takes [n] answers from the channel, and waits for ever when fewer
    arrive. *)
Fixpoint receive {S : Type} (n : nat) (replies : list util.GetResponse)
    (handle : S -> util.GetResponse -> go_result S) (s : S) : M S :=
  match n with
  | O => ret s
  | Datatypes.S n' =>
      match replies with
      | [] => pending
      | rsp :: rest =>
          match handle s rsp with
          | Returned s' => receive n' rest handle s'
          | Panicked msg => panic msg
          end
      end
  end.

(** *** Block headers *)

Definition isBlockExtends (prevHash : string) (block : blockHeader.t) : bool :=
  let data :=
    fmt.Sprintf "%v:%v:%v:%v:%v:%v:%v"
      [fmt.OString (blockHeader.MinerId block); fmt.OString prevHash;
       fmt.OInt64 (blockHeader.CreationDate block);
       fmt.OInt64 (blockHeader.Round block);
       fmt.OInt64 (blockHeader.RoundRandomSeed block);
       fmt.OString (blockHeader.MerkleTreeRoot block);
       fmt.OString (blockHeader.ReceiptMerkleTreeRoot block)] in
  let h := encryption_Hash data in
  if String.eqb (blockHeader.Hash block) h then true else false.

(** The header [getBlockHeaderFromTransactionConfirmation] fills in from a
    confirmation; the fields it does not assign keep their zero value. *)
Definition confirmation_header (cfm : confirmation.t) : blockHeader.t :=
  {| blockHeader.Version := "";
     blockHeader.CreationDate := confirmation.CreationDate cfm;
     blockHeader.Hash := confirmation.BlockHash cfm;
     blockHeader.MinerId := confirmation.MinerID cfm;
     blockHeader.Round := confirmation.Round cfm;
     blockHeader.RoundRandomSeed := confirmation.RoundRandomSeed cfm;
     blockHeader.MerkleTreeRoot := confirmation.MerkleTreeRoot cfm;
     blockHeader.StateHash := "";
     blockHeader.ReceiptMerkleTreeRoot := confirmation.ReceiptMerkleTreeRoot cfm;
     blockHeader.NumTxns := 0 |}.

Definition getBlockHeaderFromTransactionConfirmation (txnHash : string)
    (cfmBlock : gmap string string) : go_result (or_error blockHeader.t) :=
  match cfmBlock !! "confirmation" with
  | Some cfmBytes =>
      match json_Unmarshal_confirmation cfmBytes with
      | Err err =>
          Returned (Err (fmt.Sprintf "txn confirmation parse error. %s" [fmt.OString err]))
      | Ok cfm =>
          match confirmation.Transaction cfm with
          | None => Panicked nil_dereference
          | Some cfmTxn =>
              if negb (String.eqb txnHash (transaction.Hash cfmTxn)) then
                Returned (Err (fmt.Sprintf
                  "invalid transaction hash. Expected: %s. Received: %s"
                  [fmt.OString txnHash; fmt.OString (transaction.Hash cfmTxn)]))
              else if negb (VerifyMerklePath (transaction.Hash cfmTxn)
                              (confirmation.MerkleTreePath cfm)
                              (confirmation.MerkleTreeRoot cfm)) then
                Returned (Err (fmt.Sprintf "txn merkle validation failed." []))
              else if negb (VerifyMerklePath (receipt_GetHash cfmTxn)
                              (confirmation.ReceiptMerkleTreePath cfm)
                              (confirmation.ReceiptMerkleTreeRoot cfm)) then
                Returned (Err (fmt.Sprintf "txn receipt cmerkle validation failed." []))
              else
                let prevBlockHash := confirmation.PreviousBlockHash cfm in
                let block := confirmation_header cfm in
                if isBlockExtends prevBlockHash block then Returned (Ok block)
                else Returned (Err (fmt.Sprintf
                       "block hash verification failed in confirmation" []))
          end
      end
  | None => Returned (Err (fmt.Sprintf "txn confirmation not found." []))
  end.

(** *** Asking sharders for the confirmation *)

(** The variables of [getTransactionConfirmation]'s loop. *)
Record confirmation_votes : Type := {
  maxConfirmation : Z;
  txnConfirmations : gmap string Z;
  blockHdr : option blockHeader.t;
  lfb : blockHeader.t;
  confirmation_map : option (gmap string string)
}.

(** What [getTransactionConfirmation] returns. *)
Record confirmation_result : Type := {
  cr_block : option blockHeader.t;
  cr_confirmation : option (gmap string string);
  cr_lfb : blockHeader.t;
  cr_err : option string
}.

(** One pass of the receiving loop. *)
Definition countConfirmation (txnHash : string) (st : confirmation_votes)
    (rsp : util.GetResponse) : go_result confirmation_votes :=
  if (util.StatusCode rsp =? http.StatusOK)%Z then
    match json_Unmarshal_object (util.Body rsp) with
    | Err _ => Returned st
    | Ok cfmLfb =>
        match getBlockHeaderFromTransactionConfirmation txnHash cfmLfb with
        | Panicked msg => Panicked msg
        | Returned (Ok bH) =>
            let n := default 0 (txnConfirmations st !! blockHeader.Hash bH) + 1 in
            let votes := <[blockHeader.Hash bH := n]> (txnConfirmations st) in
            if (n >? maxConfirmation st)%Z then
              Returned {| maxConfirmation := n; txnConfirmations := votes;
                          blockHdr := Some bH; lfb := lfb st;
                          confirmation_map := Some cfmLfb |}
            else
              Returned {| maxConfirmation := maxConfirmation st;
                          txnConfirmations := votes;
                          blockHdr := blockHdr st; lfb := lfb st;
                          confirmation_map := confirmation_map st |}
        | Returned (Err _) =>
            match cfmLfb !! "latest_finalized_block" with
            | Some lfbRaw =>
                Returned {| maxConfirmation := maxConfirmation st;
                            txnConfirmations := txnConfirmations st;
                            blockHdr := blockHdr st;
                            lfb := fst (json_Unmarshal_blockHeader lfbRaw (lfb st));
                            confirmation_map := confirmation_map st |}
            | None => Returned st
            end
        end
    end
  else Returned st.

Definition getTransactionConfirmation (numSharders : Z) (txnHash : string)
  : M confirmation_result :=
  replies <- queryFromSharders numSharders
    (fmt.Sprintf "%v%v&content=lfb" [fmt.OString TXN_VERIFY_URL; fmt.OString txnHash]) ;;
  st <- receive (Z.to_nat numSharders) replies (countConfirmation txnHash)
          {| maxConfirmation := 0; txnConfirmations := ∅; blockHdr := None;
             lfb := blockHeader.zero; confirmation_map := None |} ;;
  if (maxConfirmation st =? 0)%Z then
    ret {| cr_block := None; cr_confirmation := confirmation_map st;
           cr_lfb := lfb st;
           cr_err := Some (fmt.Sprintf "transaction not found" []) |}
  else
    ret {| cr_block := blockHdr st; cr_confirmation := confirmation_map st;
           cr_lfb := lfb st; cr_err := None |}.

(** *** Asking sharders for the header of a round *)

Record round_votes : Type := {
  maxConsensus : Z;
  roundConsensus : gmap string Z;
  blkHdr : blockHeader.t
}.

(** One pass of [getBlockInfoByRound]'s receiving loop. The header is
    decoded into the map that holds the answer, and the hash is looked up
    in the map as that second decoding leaves it. *)
Definition countHeader (st : round_votes) (rsp : util.GetResponse)
  : go_result round_votes :=
  if (util.StatusCode rsp =? http.StatusOK)%Z then
    match json_Unmarshal_object (util.Body rsp) with
    | Err _ => Returned st
    | Ok objmap =>
        match objmap !! "header" with
        | Some header =>
            match json_Unmarshal_object_into header objmap with
            | Err _ => Returned st
            | Ok objmap' =>
                match objmap' !! "hash" with
                | Some hash =>
                    let h := encryption_FastHash hash in
                    let n := default 0 (roundConsensus st !! h) + 1 in
                    let votes := <[h := n]> (roundConsensus st) in
                    if (n >? maxConsensus st)%Z then
                      Returned {| maxConsensus := n; roundConsensus := votes;
                                  blkHdr := fst (json_Unmarshal_blockHeader header (blkHdr st)) |}
                    else
                      Returned {| maxConsensus := maxConsensus st;
                                  roundConsensus := votes; blkHdr := blkHdr st |}
                | None => Returned st
                end
            end
        | None => Returned st
        end
    end
  else Returned st.

Definition getBlockInfoByRound (numSharders : Z) (round : Z) (content : string)
  : M (or_error blockHeader.t) :=
  replies <- queryFromSharders numSharders
    (fmt.Sprintf "%vround=%v&content=%v"
       [fmt.OString GET_BLOCK_INFO; fmt.OInt64 round; fmt.OString content]) ;;
  st <- receive (Z.to_nat numSharders) replies countHeader
          {| maxConsensus := 0; roundConsensus := ∅; blkHdr := blockHeader.zero |} ;;
  if (maxConsensus st =? 0)%Z then ret (Err (fmt.Sprintf "round info not found." []))
  else ret (Ok (blkHdr st)).

(** *** Walking the chain forward *)

(** The variables of [validateChain]'s loop. *)
Record chain_walk : Type := {
  round : Z;
  currentBlockHash : string
}.

(** The end of the loop body, once [nextBlock] is in hand: [None] is
    [continue], [Some b] is [return b]. *)
Definition extend (confirmRound : Z) (st : chain_walk) (nextBlock : blockHeader.t)
  : chain_walk * option bool :=
  let st' :=
    if isBlockExtends (currentBlockHash st) nextBlock then
      {| round := Int64.add (round st) 1;
         currentBlockHash := blockHeader.Hash nextBlock |}
    else st in
  if ((round st' >? confirmRound)
      && (Int64.sub (round st') confirmRound <? getMinRequiredChainLength))%Z
  then (st', None)
  else if (round st' <? confirmRound)%Z then (st', Some false)
  else (st', Some true).

Fixpoint validateChain_loop (fuel : nat) (confirmRound : Z) (st : chain_walk)
  : M (bool * chain_walk) :=
  match fuel with
  | O => pending
  | S fuel' =>
      let finish (nextBlock : blockHeader.t) : M (bool * chain_walk) :=
        match extend confirmRound st nextBlock with
        | (st', None) => validateChain_loop fuel' confirmRound st'
        | (st', Some b) => ret (b, st')
        end in
      first <- getBlockInfoByRound 1 (round st) "header" ;;
      match first with
      | Ok nextBlock => finish nextBlock
      | Err _ =>
          Sleep (1 * Second) ;;
          second <- getBlockInfoByRound getMinShardersVerify (round st) "header" ;;
          match second with
          | Ok nextBlock => finish nextBlock
          | Err _ =>
              Sleep defaultWaitSeconds ;;
              validateChain_loop fuel' confirmRound st
          end
      end
  end.

Definition chain_start (confirmBlock : blockHeader.t) : chain_walk :=
  {| round := Int64.add (blockHeader.Round confirmBlock) 1;
     currentBlockHash := blockHeader.Hash confirmBlock |}.

Definition validateChain (fuel : nat) (confirmBlock : blockHeader.t) : M bool :=
  r <- validateChain_loop fuel (blockHeader.Round confirmBlock)
         (chain_start confirmBlock) ;;
  ret (fst r).

(** *** The transaction handle *)

Definition with_txn (e : transaction.Transaction) (t : Transaction) : Transaction :=
  {| txn := e; txnOut := txnOut t; txnHash := txnHash t;
     txnStatus := txnStatus t; txnError := txnError t; txnCb := txnCb t;
     verifyStatus := verifyStatus t; verifyOut := verifyOut t;
     verifyError := verifyError t |}.

Definition with_txnHash (h : string) (t : Transaction) : Transaction :=
  {| txn := txn t; txnOut := txnOut t; txnHash := h;
     txnStatus := txnStatus t; txnError := txnError t; txnCb := txnCb t;
     verifyStatus := verifyStatus t; verifyOut := verifyOut t;
     verifyError := verifyError t |}.

Definition with_txnCb (cb : option TransactionCallback) (t : Transaction) : Transaction :=
  {| txn := txn t; txnOut := txnOut t; txnHash := txnHash t;
     txnStatus := txnStatus t; txnError := txnError t; txnCb := cb;
     verifyStatus := verifyStatus t; verifyOut := verifyOut t;
     verifyError := verifyError t |}.

Definition with_verify (status : Z) (out : string) (err : option string)
    (t : Transaction) : Transaction :=
  {| txn := txn t; txnOut := txnOut t; txnHash := txnHash t;
     txnStatus := txnStatus t; txnError := txnError t; txnCb := txnCb t;
     verifyStatus := status; verifyOut := out; verifyError := err |}.

Definition completeVerify (status : Z) (out : string) (err : option string)
    (t : Transaction) : M Transaction :=
  let t' := with_verify status out err t in
  match txnCb t' with
  | Some cb => emit (EOnVerifyComplete cb (verifyStatus t')) ;; ret t'
  | None => ret t'
  end.

(** [newTransaction]: the entity comes from [NewTransactionEntity]. *)
Definition newTransaction (entity : transaction.Transaction)
    (cb : option TransactionCallback) (txnFee : Z) : Transaction :=
  {| txn := transaction.set_TransactionFee txnFee entity;
     txnOut := ""; txnHash := "";
     txnStatus := StatusUnknown; txnError := None; txnCb := cb;
     verifyStatus := StatusUnknown; verifyOut := ""; verifyError := None |}.

Definition SetTransactionCallback (cb : option TransactionCallback)
    (t : Transaction) : option string * Transaction :=
  if negb (txnStatus t =? StatusUnknown)%Z then
    (Some (fmt.Sprintf "transaction already exists. cannot set transaction hash." []), t)
  else (None, with_txnCb cb t).

Definition SetTransactionFee (txnFee : Z) (t : Transaction)
  : option string * Transaction :=
  if negb (txnStatus t =? StatusUnknown)%Z then
    (Some (fmt.Sprintf "transaction already exists. cannot set transaction fee." []), t)
  else (None, with_txn (transaction.set_TransactionFee txnFee (txn t)) t).

Definition SetTransactionHash (hash : string) (t : Transaction)
  : option string * Transaction :=
  if negb (txnStatus t =? StatusUnknown)%Z then
    (Some (fmt.Sprintf "transaction already exists. cannot set transaction hash." []), t)
  else (None, with_txnHash hash t).

(** [GetTransactionHash] reads the hash out of the miners' answer the first
    time it is asked, and keeps it. A body that does not decode leaves the
    map of its entries empty. *)
Definition GetTransactionHash (t : Transaction) : string * Transaction :=
  if negb (String.eqb (txnHash t) "") then (txnHash t, t)
  else if negb (txnStatus t =? StatusSuccess)%Z then ("", t)
  else
    let txnout : gmap string string :=
      match json_Unmarshal_object (txnOut t) with
      | Ok m => m
      | Err _ => ∅
      end in
    match json_Unmarshal_entity_hash (default "" (txnout !! "entity")) with
    | Err _ => (txnHash t, t)
    | Ok (Some hash) => (hash, with_txnHash hash t)
    | Ok None => (txnHash t, t)
    end.

Definition GetVerifyOutput (t : Transaction) : string :=
  if (verifyStatus t =? StatusSuccess)%Z then verifyOut t else "".

(** [err.Error()] on an [error] that may be [nil]. *)
Definition error_Error (err : option string) : go_result string :=
  match err with
  | Some msg => Returned msg
  | None => Panicked nil_dereference
  end.

Definition GetTransactionError (t : Transaction) : go_result string :=
  if negb (txnStatus t =? StatusSuccess)%Z then error_Error (txnError t)
  else Returned "".

Definition GetVerifyError (t : Transaction) : go_result string :=
  if negb (verifyStatus t =? StatusSuccess)%Z then error_Error (verifyError t)
  else Returned "".

(** *** Verification *)

Definition isTransactionExpired (t : Transaction) (lfbCreationTime currentTime : Z)
  : M bool :=
  let lfbCreationTime :=
    if (lfbCreationTime =? 0)%Z then currentTime else lfbCreationTime in
  if (Z.min lfbCreationTime currentTime
        >? Int64.add (transaction.CreationDate (txn t)) defaultTxnExpirationSeconds)%Z
  then ret true
  else Sleep defaultWaitSeconds ;; ret false.

(** How one pass of [Verify]'s loop ends: [continue], or [return] with the
    handle as [completeVerify] left it. *)
Inductive pass : Type :=
| Again
| Finished (t : Transaction).

(** The double quote of the error texts that are JSON. *)
Definition dquote : string := String (ascii_of_nat 34) EmptyString.

Definition verify_failed : option string :=
  Some (fmt.Sprintf
    ("{" +:+ dquote +:+ "error" +:+ dquote +:+ ": " +:+ dquote
       +:+ "verify transaction failed" +:+ dquote +:+ "}") []).

Definition marshal_failed : option string :=
  Some (fmt.Sprintf
    ("{" +:+ dquote +:+ "error" +:+ dquote +:+ ": " +:+ dquote
       +:+ "transaction confirmation json marshal error" +:+ dquote) []).

(** The tail of a pass, once a confirmation is in hand. *)
Definition confirm (fuel : nat) (t : Transaction) (r : confirmation_result) : M pass :=
  match cr_block r with
  | None => panic nil_dereference
  | Some confirmBlock =>
      valid <- validateChain fuel confirmBlock ;;
      if valid then
        match json_Marshal_object (cr_confirmation r) with
        | Err _ =>
            t' <- completeVerify StatusError "" marshal_failed t ;;
            ret (Finished t')
        | Ok output =>
            t' <- completeVerify StatusSuccess output None t ;;
            ret (Finished t')
        end
      else ret Again
  end.

(** The tail of a pass that found no confirmation. *)
Definition give_up_or_retry (t : Transaction) (lfbCreationTime tn : Z) : M pass :=
  expired <- isTransactionExpired t lfbCreationTime tn ;;
  if expired then
    t' <- completeVerify StatusError "" verify_failed t ;;
    ret (Finished t')
  else ret Again.

(** One pass of the loop of [Verify]'s goroutine. *)
Definition verify_pass (fuel : nat) (t : Transaction) : M pass :=
  probe <- getTransactionConfirmation 1 (txnHash t) ;;
  match cr_err probe with
  | Some _ =>
      tn <- Now ;;
      if (Z.max (blockHeader.CreationDate (cr_lfb probe)) tn
            <? Int64.add (transaction.CreationDate (txn t)) defaultTxnExpirationSeconds)%Z
      then
        quorum <- getTransactionConfirmation getMinShardersVerify (txnHash t) ;;
        match cr_err quorum with
        | Some _ => give_up_or_retry t (blockHeader.CreationDate (cr_lfb quorum)) tn
        | None => confirm fuel t quorum
        end
      else give_up_or_retry t (blockHeader.CreationDate (cr_lfb probe)) tn
  | None => confirm fuel t probe
  end.

Fixpoint verify_loop (fuel : nat) (t : Transaction) : M Transaction :=
  match fuel with
  | O => pending
  | S fuel' =>
      p <- verify_pass fuel' t ;;
      match p with
      | Again => verify_loop fuel' t
      | Finished t' => ret t'
      end
  end.

(** What [Verify] does before it returns: the error it returns, the handle,
    and whether it started the goroutine that runs [verify_loop]. *)
Definition Verify (t : Transaction) : M (option string * Transaction * bool) :=
  let invalid := Some (fmt.Sprintf "invalid transaction. cannot be verified." []) in
  let start (t1 : Transaction) : M (option string * Transaction * bool) :=
    t2 <- (if (transaction.CreationDate (txn t1) =? 0)%Z then
             now <- Now ;;
             ret (with_txn (transaction.set_CreationDate now (txn t1)) t1)
           else ret t1) ;;
    ret (None, t2, true) in
  if String.eqb (txnHash t) "" && (txnStatus t =? StatusUnknown)%Z then
    ret (invalid, t, false)
  else if String.eqb (txnHash t) "" && (txnStatus t =? StatusSuccess)%Z then
    let (h, t1) := GetTransactionHash t in
    if String.eqb h "" then ret (invalid, t1, false) else start t1
  else start t.

(** [Verify] followed by the goroutine it started, run to its end. *)
Definition Verify_and_wait (fuel : nat) (t : Transaction)
  : M (option string * Transaction) :=
  r <- Verify t ;;
  match r with
  | (err, t', true) => t'' <- verify_loop fuel t' ;; ret (err, t'')
  | (err, t', false) => ret (err, t')
  end.

End Model.

(** ** The broadcast to the miners *)

Section Broadcast.

Context `{Externals} `{Miners}.

Definition with_submission (status : Z) (out : string) (err : option string)
    (t : Transaction) : Transaction :=
  {| txn := txn t; txnOut := out; txnHash := txnHash t;
     txnStatus := status; txnError := err; txnCb := txnCb t;
     verifyStatus := verifyStatus t; verifyOut := verifyOut t;
     verifyError := verifyError t |}.

Definition completeTxn (status : Z) (out : string) (err : option string)
    (t : Transaction) : M Transaction :=
  let t' := with_submission status out err t in
  match txnCb t' with
  | Some cb => emit (EOnTransactionComplete cb (txnStatus t')) ;; ret t'
  | None => ret t'
  end.

(** The goroutines started for the sampled miners: each posts the entity
    and sends what it got to the result channel. *)
Definition postToMiners (e : transaction.Transaction)
  : M (list string * list (option PostResponse.t)) :=
  fun w =>
    let randomMiners := util_GetRandom_miners (tick w) in
    Ret (randomMiners, miners_reply (tick w) randomMiners e)
        (advance (EPost randomMiners) w).

(** The loop [for range randomMiners { select { case rsp := <-result: ... } } ]:
    it takes [n] pointers from the channel, and waits for ever when fewer
    arrive. *)
Fixpoint receive_post {S : Type} (n : nat) (answers : list (option PostResponse.t))
    (handle : S -> option PostResponse.t -> go_result S) (s : S) : M S :=
  match n with
  | O => ret s
  | Datatypes.S n' =>
      match answers with
      | [] => pending
      | rsp :: rest =>
          match handle s rsp with
          | Returned s' => receive_post n' rest handle s'
          | Panicked msg => panic msg
          end
      end
  end.

(** The variables of [submitTxn]'s receiving loop. *)
Record submit_votes : Type := {
  consensus : float32.t;
  tSuccessRsp : string;
  tFailureRsp : string
}.

(** One pass of that loop; it reads [rsp.Url] first, whatever [rsp] is. *)
Definition countResponse (st : submit_votes) (rsp : option PostResponse.t)
  : go_result submit_votes :=
  match rsp with
  | None => Panicked nil_dereference
  | Some rsp =>
      if (PostResponse.StatusCode rsp =? http.StatusOK)%Z then
        Returned {| consensus := float32.add (consensus st) (float32.of_int 1);
                    tSuccessRsp := PostResponse.Body rsp;
                    tFailureRsp := tFailureRsp st |}
      else
        Returned {| consensus := consensus st;
                    tSuccessRsp := tSuccessRsp st;
                    tFailureRsp := PostResponse.Body rsp |}
  end.

Definition submitTxn (t0 : Transaction) : M Transaction :=
  let t := with_submission StatusUnknown "" None t0 in
  let broadcast (t : Transaction) : M Transaction :=
    posted <- postToMiners (txn t) ;;
    let randomMiners := fst posted in
    st <- receive_post (length randomMiners) (snd posted) countResponse
            {| consensus := float32.of_int 0; tSuccessRsp := ""; tFailureRsp := "" |} ;;
    let rate :=
      float32.div (float32.mul (consensus st) (float32.of_int 100))
        (float32.of_int (Z.of_nat (length randomMiners))) in
    if float32.ltb rate consensusThresh then
      completeTxn StatusError ""
        (Some (fmt.Sprintf "submit transaction failed. %s"
                 [fmt.OString (tFailureRsp st)])) t
    else
      Sleep (3 * Second) ;;
      completeTxn StatusSuccess (tSuccessRsp st) None t in
  if String.eqb (transaction.Signature (txn t)) "" then
    let signed := transaction_ComputeHashAndSign (txn t) in
    match snd signed with
    | Some err => completeTxn StatusError "" (Some err) (with_txn (fst signed) t)
    | None => broadcast (with_txn (fst signed) t)
    end
  else broadcast t.

End Broadcast.

(** ** The formulas of the specification *)

(** The fields of a header joined by colons, in the order of invariant I4:
    miner, previous hash, creation date, round, random seed, Merkle root,
    receipt Merkle root. *)
Fixpoint colon_join (fields : list string) : string :=
  match fields with
  | [] => ""
  | [f] => f
  | f :: rest => f +:+ ":" +:+ colon_join rest
  end.

Definition I4_data (previous_hash : string) (b : blockHeader.t) : string :=
  colon_join
    [blockHeader.MinerId b; previous_hash;
     fmt.decimal (blockHeader.CreationDate b);
     fmt.decimal (blockHeader.Round b);
     fmt.decimal (blockHeader.RoundRandomSeed b);
     blockHeader.MerkleTreeRoot b;
     blockHeader.ReceiptMerkleTreeRoot b].

(** The expiration rule: the earlier of the latest finalized block's
    creation time and now is past the deadline, now standing for the block's
    time when that is unknown (zero). *)
Definition past_expiration (deadline lfb_creation_time now : Z) : Prop :=
  Z.min (if (lfb_creation_time =? 0)%Z then now else lfb_creation_time) now > deadline.

(** What holds each time the walk is at the head of its loop, [n] headers
    having extended the chain so far: the round counter is the confirmation
    round plus one plus [n], as a 64-bit integer, and after the first header
    the chain is still shorter than required and the counter has not
    wrapped around. *)
Definition walk_inv `{Externals} (confirmBlock : blockHeader.t) (n : nat)
    (st : chain_walk) : Prop :=
  let k := 1 + Z.of_nat n in
  round st = Int64.wrap (blockHeader.Round confirmBlock + k)
  /\ (k = 1 \/ (k < getMinRequiredChainLength
                 /\ blockHeader.Round confirmBlock + k <= Int64.max_int)).

(** The four checks on a confirmation that carries its transaction. *)
Definition confirmation_checks `{Externals} (expected_hash : string)
    (cfm : confirmation.t) (cfmTxn : transaction.Transaction) : Prop :=
  transaction.Hash cfmTxn = expected_hash
  /\ VerifyMerklePath (transaction.Hash cfmTxn) (confirmation.MerkleTreePath cfm)
       (confirmation.MerkleTreeRoot cfm) = true
  /\ VerifyMerklePath (receipt_GetHash cfmTxn) (confirmation.ReceiptMerkleTreePath cfm)
       (confirmation.ReceiptMerkleTreeRoot cfm) = true
  /\ confirmation.BlockHash cfm
     = encryption_Hash
         (I4_data (confirmation.PreviousBlockHash cfm) (confirmation_header cfm)).

(** The queries the code builds. *)
Definition confirmation_query `{Externals} (txnHash : string) : string :=
  fmt.Sprintf "%v%v&content=lfb" [fmt.OString TXN_VERIFY_URL; fmt.OString txnHash].

Definition is_query (e : event) : bool :=
  match e with
  | EQuery _ _ => true
  | _ => false
  end.

(** A world that comes later in the same run: the trace has grown, and the
    tick with it. *)
Definition reaches (w w' : world) : Prop :=
  exists evs,
    trace w' = (trace w ++ evs)%list /\ tick w' = (tick w + length evs)%nat.

(** A computation only moves the world forward. *)
Definition steady {A : Type} (c : M A) : Prop :=
  forall w, reaches w (final_world (c w)).


(** *** The broadcast *)

Definition accepts (rsp : PostResponse.t) : bool :=
  (PostResponse.StatusCode rsp =? 200)%Z.

Definition refuses (rsp : PostResponse.t) : bool := negb (accepts rsp).

(** The body of the last response of a kind, the empty text if there is none. *)
Definition last_body (kind : PostResponse.t -> bool) (rs : list PostResponse.t)
  : string :=
  match last (List.filter kind rs) with
  | Some rsp => PostResponse.Body rsp
  | None => ""
  end.

(** A [float32] counter that started at zero and was incremented [n] times. *)
Definition float32_count (n : nat) : float32.t :=
  Nat.iter n (fun c => float32.add c (float32.of_int 1)) (float32.of_int 0).

(** The percentage of [count] among [miners], computed in [float32]: the
    counter times 100, divided by the converted number of miners. *)
Definition float32_percentage (count miners : nat) : float32.t :=
  float32.div (float32.mul (float32_count count) (float32.of_int 100))
    (float32.of_int (Z.of_nat miners)).

(** The exact percentage 100 * count / miners is less than the number a
    finite positive [float32] stands for, mantissa times 2 ^ exponent. *)
Definition percentage_below (count miners : Z) (x : float32.t) : Prop :=
  match x with
  | SpecFloat.S754_finite false m e =>
      100 * count * 2 ^ Z.max 0 (- e) < Z.pos m * 2 ^ Z.max 0 e * miners
  | _ => False
  end.

(** The entity [submitTxn] posts, and the error of signing it: the entity
    is signed when it carries no signature yet. *)
Definition signed_entity `{Miners} (t : Transaction)
  : transaction.Transaction * option string :=
  if String.eqb (transaction.Signature (txn t)) "" then
    transaction_ComputeHashAndSign (txn t)
  else (txn t, None).

(** The miners sampled for a broadcast that starts in a world, what
    arrives from them, and the handle as [submitTxn] has it when it posts. *)
Definition sampled `{Miners} (w : world) : list string :=
  util_GetRandom_miners (tick w).

Definition arrivals `{Miners} (t : Transaction) (w : world)
  : list (option PostResponse.t) :=
  miners_reply (tick w) (sampled w) (fst (signed_entity t)).

Definition posted `{Externals} `{Miners} (t : Transaction) : Transaction :=
  with_txn (fst (signed_entity t)) (with_submission StatusUnknown "" None t).

(** The variables of the receiving loop after the responses [rs]. *)
Definition tally (rs : list PostResponse.t) : submit_votes :=
  {| consensus := float32_count (length (List.filter accepts rs));
     tSuccessRsp := last_body accepts rs;
     tFailureRsp := last_body refuses rs |}.

(** The call [OnTransactionComplete] a handle's callback receives, if it has
    one. *)
Definition txn_callback (t : Transaction) : list event :=
  match txnCb t with
  | Some cb => [EOnTransactionComplete cb (txnStatus t)]
  | None => []
  end.

(** ** A small world to run the model in

    Three sharders, a confirmation depth of three rounds, a sixty second
    expiration window. Transaction [T] sits in the block of round 7 and the
    sharders serve the headers of rounds 8 and 9; transaction [U] is known
    to no sharder. The codec is a table over the few bodies that occur, and
    the hash function only brackets its argument. *)

Module demo.

Definition Hash (data : string) : string := "H(" +:+ data +:+ ")".

Definition path : option util.MTPath :=
  Some {| util.Nodes := []; util.LeafIndex := 0 |}.

(** A tree of one leaf: the leaf is the root. *)
Definition one_leaf_tree (hash : string) (p : option util.MTPath)
    (root : string) : bool :=
  String.eqb hash root.

Definition receipt (e : transaction.Transaction) : string :=
  "R(" +:+ transaction.Hash e +:+ ")".

Definition entity (hash : string) : transaction.Transaction :=
  {| transaction.Hash := hash; transaction.Signature := "sig";
     transaction.ClientID := "alice"; transaction.PublicKey := "pk";
     transaction.ToClientID := "bob"; transaction.ChainID := "chain";
     transaction.TransactionType := 0; transaction.TransactionData := "pay";
     transaction.Value := 10; transaction.TransactionFee := 1;
     transaction.CreationDate := 1000 |}.

Definition hash7 : string := Hash "m1:B6:1000:7:42:T:R(T)".
Definition hash8 : string := Hash ("m2:" +:+ hash7 +:+ ":1010:8:43:M8:R8").
Definition hash9 : string := Hash ("m3:" +:+ hash8 +:+ ":1020:9:44:M9:R9").

Definition cfm (e : option transaction.Transaction) : confirmation.t :=
  {| confirmation.Version := "1.0"; confirmation.Hash := "T";
     confirmation.BlockHash := hash7; confirmation.PreviousBlockHash := "B6";
     confirmation.Transaction := e; confirmation.CreationDate := 1000;
     confirmation.MinerID := "m1"; confirmation.Round := 7;
     confirmation.Status := 1; confirmation.RoundRandomSeed := 42;
     confirmation.MerkleTreeRoot := "T"; confirmation.MerkleTreePath := path;
     confirmation.ReceiptMerkleTreeRoot := "R(T)";
     confirmation.ReceiptMerkleTreePath := path |}.

Definition header (miner : string) (created round seed : Z) (hash root receipts : string)
  : blockHeader.t :=
  {| blockHeader.Version := "1.0"; blockHeader.CreationDate := created;
     blockHeader.Hash := hash; blockHeader.MinerId := miner;
     blockHeader.Round := round; blockHeader.RoundRandomSeed := seed;
     blockHeader.MerkleTreeRoot := root; blockHeader.StateHash := "";
     blockHeader.ReceiptMerkleTreeRoot := receipts; blockHeader.NumTxns := 1 |}.

Definition header7 : blockHeader.t := header "m1" 1000 7 42 hash7 "T" "R(T)".
Definition header8 : blockHeader.t := header "m2" 1010 8 43 hash8 "M8" "R8".
Definition header9 : blockHeader.t := header "m3" 1020 9 44 hash9 "M9" "R9".
Definition lfb1050 : blockHeader.t := header "m9" 1050 12 47 "B12" "M12" "R12".

Definition unmarshal_object (body : string) : or_error (gmap string string) :=
  if String.eqb body "answer: T confirmed" then
    Ok (<["confirmation" := "confirmation of T"]>
        (<["latest_finalized_block" := "block 12"]> ∅))
  else if String.eqb body "answer: confirmation without txn" then
    Ok (<["confirmation" := "confirmation without txn"]> ∅)
  else if String.eqb body "answer: not found" then
    Ok (<["latest_finalized_block" := "block 12"]> ∅)
  else if String.eqb body "answer: round 8" then Ok (<["header" := "block 8"]> ∅)
  else if String.eqb body "answer: round 9" then Ok (<["header" := "block 9"]> ∅)
  else if String.eqb body "block 8" then Ok (<["hash" := hash8]> ∅)
  else if String.eqb body "block 9" then Ok (<["hash" := hash9]> ∅)
  else if String.eqb body "answer: submitted T" then Ok (<["entity" := "entity T"]> ∅)
  else if String.eqb body "answer: null header" then
    Ok (<["header" := "null"]> (<["hash" := "x"]> ∅))
  else Err "invalid character".

(** Decoding into a map that has entries: [null] leaves the nil map, an
    object adds its members to the entries. *)
Definition unmarshal_object_into (raw : string) (old : gmap string string)
  : or_error (gmap string string) :=
  if String.eqb raw "null" then Ok ∅
  else
    match unmarshal_object raw with
    | Ok fields => Ok (fields ∪ old)
    | Err err => Err err
    end.

Definition unmarshal_confirmation (raw : string) : or_error confirmation.t :=
  if String.eqb raw "confirmation of T" then Ok (cfm (Some (entity "T")))
  else if String.eqb raw "confirmation without txn" then Ok (cfm None)
  else Err "invalid character".

Definition unmarshal_blockHeader (raw : string) (old : blockHeader.t)
  : blockHeader.t * option string :=
  if String.eqb raw "block 8" then (header8, None)
  else if String.eqb raw "block 9" then (header9, None)
  else if String.eqb raw "block 12" then (lfb1050, None)
  else (old, Some "invalid character").

Definition unmarshal_entity_hash (raw : string) : or_error (option string) :=
  if String.eqb raw "entity T" then Ok (Some "T")
  else Err "unexpected end of JSON input".

Definition marshal_object (m : option (gmap string string)) : or_error string :=
  match m with
  | Some _ => Ok "answer: T confirmed"
  | None => Ok "null"
  end.

Definition answer (code : Z) (body : string) : util.GetResponse :=
  {| util.Url := "sharder"; util.Status := "status";
     util.StatusCode := code; util.Body := body |}.

Definition verify_url : string := "/v1/transaction/get/confirmation?hash=".
Definition block_url : string := "/v1/block/get?".

(** Every sharder asked gives the same answer, whenever it is asked. *)
Definition replies (tick : nat) (numSharders : Z) (query : string)
  : list util.GetResponse :=
  let all (a : util.GetResponse) := repeat a (Z.to_nat numSharders) in
  if String.eqb query (verify_url +:+ "T&content=lfb") then
    all (answer 200 "answer: T confirmed")
  else if String.eqb query (verify_url +:+ "U&content=lfb") then
    all (answer 200 "answer: not found")
  else if String.eqb query (block_url +:+ "round=8&content=header") then
    all (answer 200 "answer: round 8")
  else if String.eqb query (block_url +:+ "round=9&content=header") then
    all (answer 200 "answer: round 9")
  else all (answer 404 "no such round").

Definition externals : Externals :=
  {| StatusUnknown := -1;
     StatusSuccess := 0;
     StatusError := 2;
     TXN_VERIFY_URL := demo.verify_url;
     GET_BLOCK_INFO := demo.block_url;
     defaultTxnExpirationSeconds := 60;
     defaultWaitSeconds := 5 * 1000000000;
     getMinShardersVerify := 3;
     getMinRequiredChainLength := 3;
     encryption_Hash := demo.Hash;
     encryption_FastHash := demo.Hash;
     VerifyMerklePath := demo.one_leaf_tree;
     receipt_GetHash := demo.receipt;
     json_Unmarshal_object := demo.unmarshal_object;
     json_Unmarshal_object_into := demo.unmarshal_object_into;
     json_Unmarshal_confirmation := demo.unmarshal_confirmation;
     json_Unmarshal_blockHeader := demo.unmarshal_blockHeader;
     json_Unmarshal_entity_hash := demo.unmarshal_entity_hash;
     json_Marshal_object := demo.marshal_object;
     sharders_reply := demo.replies;
     common_Now := fun _ => 1070 |}.

Definition start : world := {| tick := 0; trace := [] |}.

(** A handle for transaction [hash], submitted with the given status. *)
Definition handle (hash : string) (status : Z) : Transaction :=
  {| txn := entity hash; txnOut := ""; txnHash := hash; txnStatus := status;
     txnError := None; txnCb := Some 1%nat;
     verifyStatus := -1; verifyOut := ""; verifyError := None |}.

(** The same transaction [U] created at 1040: at time 1070, with a latest
    finalized block of time 1050, both clocks are before its deadline 1100. *)
Definition young_handle : Transaction :=
  {| txn := transaction.set_CreationDate 1040 (entity "U");
     txnOut := ""; txnHash := "U"; txnStatus := 0;
     txnError := None; txnCb := Some 1%nat;
     verifyStatus := -1; verifyOut := ""; verifyError := None |}.

End demo.

(** ** Reading the loops as folds, and what a run lets through *)

(** The receiving loop without the world: the passes over the answers that
    were taken. *)
Fixpoint fold_replies {S : Type} (handle : S -> util.GetResponse -> go_result S)
    (s : S) (l : list util.GetResponse) : go_result S :=
  match l with
  | [] => Returned s
  | rsp :: rest =>
      match handle s rsp with
      | Returned s' => fold_replies handle s' rest
      | Panicked msg => Panicked msg
      end
  end.

(** The header an answer votes for in [getTransactionConfirmation]: the
    answer has status 200, its body decodes, and its confirmation yields a
    header. *)
Definition valid_header `{Externals} (txnHash : string) (rsp : util.GetResponse)
  : option blockHeader.t :=
  if (util.StatusCode rsp =? http.StatusOK)%Z then
    match json_Unmarshal_object (util.Body rsp) with
    | Ok cfmLfb =>
        match getBlockHeaderFromTransactionConfirmation txnHash cfmLfb with
        | Returned (Ok bH) => Some bH
        | _ => None
        end
    | Err _ => None
    end
  else None.

(** The number of answers that vote for a block hash. *)
Fixpoint votes_for `{Externals} (txnHash hash : string) (l : list util.GetResponse) : Z :=
  match l with
  | [] => 0
  | rsp :: rest =>
      (match valid_header txnHash rsp with
       | Some bH => if String.eqb (blockHeader.Hash bH) hash then 1 else 0
       | None => 0
       end) + votes_for txnHash hash rest
  end.

(** The key an answer votes for in [getBlockInfoByRound]: the hash of the
    text found under "hash" in the answer's map once the header has been
    decoded into it. *)
Definition round_vote `{Externals} (rsp : util.GetResponse) : option string :=
  if (util.StatusCode rsp =? http.StatusOK)%Z then
    match json_Unmarshal_object (util.Body rsp) with
    | Ok objmap =>
        match objmap !! "header" with
        | Some header =>
            match json_Unmarshal_object_into header objmap with
            | Ok objmap' => encryption_FastHash <$> (objmap' !! "hash")
            | Err _ => None
            end
        | None => None
        end
    | Err _ => None
    end
  else None.

(** The query [getBlockInfoByRound] builds. *)
Definition round_query `{Externals} (round : Z) (content : string) : string :=
  fmt.Sprintf "%vround=%v&content=%v"
    [fmt.OString GET_BLOCK_INFO; fmt.OInt64 round; fmt.OString content].


(** What [getTransactionConfirmation]'s loop keeps true of its variables
    after the answers [seen]: the map counts the votes, no hash has more
    votes than [maxConfirmation], and the header held is one that an answer
    voted for and that has that many votes. *)
Definition votes_inv `{Externals} (txnHash : string) (seen : list util.GetResponse)
    (st : confirmation_votes) : Prop :=
  (forall k, default 0 (txnConfirmations st !! k) = votes_for txnHash k seen)
  /\ (forall k, votes_for txnHash k seen <= maxConfirmation st)
  /\ match blockHdr st with
     | Some b =>
         votes_for txnHash (blockHeader.Hash b) seen = maxConfirmation st
         /\ 0 < maxConfirmation st
         /\ (exists rsp, In rsp seen /\ valid_header txnHash rsp = Some b)
     | None =>
         maxConfirmation st = 0
         /\ (forall rsp, In rsp seen -> valid_header txnHash rsp = None)
     end.

(** The same for [getBlockInfoByRound]'s loop: counts are not negative and
    [maxConsensus] is zero exactly while no answer has voted. *)
Definition round_inv `{Externals} (seen : list util.GetResponse) (st : round_votes) : Prop :=
  (forall k, 0 <= default 0 (roundConsensus st !! k))
  /\ 0 <= maxConsensus st
  /\ (maxConsensus st = 0 <-> forall rsp, In rsp seen -> round_vote rsp = None).

Definition is_callback (e : event) : bool :=
  match e with
  | EOnTransactionComplete _ _ => true
  | EOnVerifyComplete _ _ => true
  | _ => false
  end.

(** A computation only adds events that satisfy [P] to the trace. *)
Definition emits {A : Type} (P : event -> bool) (c : M A) : Prop :=
  forall w, exists evs,
    trace (final_world (c w)) = (trace w ++ evs)%list /\ forallb P evs = true.

Definition no_callback (e : event) : bool := negb (is_callback e).

(** The call [OnVerifyComplete] a handle's callback receives, if it has one. *)
Definition verify_callback (t : Transaction) : list event :=
  match txnCb t with
  | Some cb => [EOnVerifyComplete cb (verifyStatus t)]
  | None => []
  end.

(** How [completeVerify] leaves a handle at the end of the loop: with
    [StatusSuccess], the encoded answer and no error, or with [StatusError],
    no output and one of the loop's two errors. *)
Definition completes `{Externals} (t t' : Transaction) : Prop :=
  (exists out m,
      json_Marshal_object m = Ok out
      /\ t' = with_verify StatusSuccess out None t)
  \/ (exists err,
        (err = verify_failed \/ err = marshal_failed)
        /\ t' = with_verify StatusError "" err t).

(** What a pass that returns has added to the trace: events that are not
    callbacks, followed, when the pass ends the loop, by the one call of
    [OnVerifyComplete]. *)
Definition pass_trace `{Externals} (t : Transaction) (p : pass) (w w' : world) : Prop :=
  exists evs,
    forallb no_callback evs = true
    /\ match p with
       | Again => trace w' = (trace w ++ evs)%list
       | Finished t' =>
           completes t t'
           /\ trace w' = (trace w ++ evs ++ verify_callback t')%list
       end.

(** A header with its two Merkle roots replaced. *)
Definition with_roots (root receipts : string) (b : blockHeader.t) : blockHeader.t :=
  {| blockHeader.Version := blockHeader.Version b;
     blockHeader.CreationDate := blockHeader.CreationDate b;
     blockHeader.Hash := blockHeader.Hash b;
     blockHeader.MinerId := blockHeader.MinerId b;
     blockHeader.Round := blockHeader.Round b;
     blockHeader.RoundRandomSeed := blockHeader.RoundRandomSeed b;
     blockHeader.MerkleTreeRoot := root;
     blockHeader.StateHash := blockHeader.StateHash b;
     blockHeader.ReceiptMerkleTreeRoot := receipts;
     blockHeader.NumTxns := blockHeader.NumTxns b |}.

(** ** Variations of the small world *)

Module bench.

(** The small world with another confirmation depth and other answers. *)
Definition tuned (chainLength : Z)
    (reply : nat -> Z -> string -> list util.GetResponse) : Externals :=
  {| StatusUnknown := -1;
     StatusSuccess := 0;
     StatusError := 2;
     TXN_VERIFY_URL := demo.verify_url;
     GET_BLOCK_INFO := demo.block_url;
     defaultTxnExpirationSeconds := 60;
     defaultWaitSeconds := 5 * 1000000000;
     getMinShardersVerify := 3;
     getMinRequiredChainLength := chainLength;
     encryption_Hash := demo.Hash;
     encryption_FastHash := demo.Hash;
     VerifyMerklePath := demo.one_leaf_tree;
     receipt_GetHash := demo.receipt;
     json_Unmarshal_object := demo.unmarshal_object;
     json_Unmarshal_object_into := demo.unmarshal_object_into;
     json_Unmarshal_confirmation := demo.unmarshal_confirmation;
     json_Unmarshal_blockHeader := demo.unmarshal_blockHeader;
     json_Unmarshal_entity_hash := demo.unmarshal_entity_hash;
     json_Marshal_object := demo.marshal_object;
     sharders_reply := reply;
     common_Now := fun _ => 1070 |}.

(** Every sharder answers every query with the header of round 8. *)
Definition always_block8 (tick : nat) (numSharders : Z) (query : string)
  : list util.GetResponse :=
  repeat (demo.answer 200 "answer: round 8") (Z.to_nat numSharders).

(** Every sharder answers with a confirmation that lacks its transaction. *)
Definition always_without_txn (tick : nat) (numSharders : Z) (query : string)
  : list util.GetResponse :=
  repeat (demo.answer 200 "answer: confirmation without txn") (Z.to_nat numSharders).

(** No answer ever arrives. *)
Definition silent (tick : nat) (numSharders : Z) (query : string)
  : list util.GetResponse := [].


(** A confirmed block at the last round a 64-bit integer can hold. *)
Definition last_round : blockHeader.t :=
  demo.header "m1" 1000 Int64.max_int 42 "last" "T" "R(T)".


(** Every sharder answers with a null header next to a hash. *)
Definition always_null_header (tick : nat) (numSharders : Z) (query : string)
  : list util.GetResponse :=
  repeat (demo.answer 200 "answer: null header") (Z.to_nat numSharders).

(** Miners: a threshold, the sample drawn, and what arrives from it; the
    entity is signed as it is. *)
Definition miners (threshold : float32.t) (sample : list string)
    (answers : list (option PostResponse.t)) : Miners :=
  {| consensusThresh := threshold;
     transaction_ComputeHashAndSign := fun e => (e, None);
     util_GetRandom_miners := fun _ => sample;
     miners_reply := fun _ _ _ => answers |}.

Definition response (code : Z) (body : string) : PostResponse.t :=
  {| PostResponse.Url := "miner"; PostResponse.Status := "status";
     PostResponse.StatusCode := code; PostResponse.Body := body |}.

Definition taken : PostResponse.t := response 200 "answer: submitted T".
Definition refused : PostResponse.t := response 500 "pool is full".

Definition five : list string := ["m1"; "m2"; "m3"; "m4"; "m5"].
Definition seven : list string := ["m1"; "m2"; "m3"; "m4"; "m5"; "m6"; "m7"].

(** Four miners of five take the transaction, then two of five. *)
Definition four_of_five : list PostResponse.t := [taken; taken; refused; taken; taken].
Definition two_of_five : list PostResponse.t := [refused; taken; refused; taken; refused].
Definition three_of_seven : list PostResponse.t :=
  [taken; refused; taken; refused; taken; refused; refused].

(** The [float32] next to 300 / 7: 11234743 * 2 ^ -18 = 42.857143402..., a
    little above 42.857142857... *)
Definition above_three_sevenths : float32.t :=
  SpecFloat.S754_finite false 11234743 (-18).

(** Miners that are never reached: signing fails for want of a key. *)
Definition no_key : Miners :=
  {| consensusThresh := float32.of_int 60;
     transaction_ComputeHashAndSign := fun e => (e, Some "no private key");
     util_GetRandom_miners := fun _ => five;
     miners_reply := fun _ _ _ => [] |}.

(** A handle whose entity is not signed yet. *)
Definition unsigned_handle : Transaction :=
  {| txn :=
       {| transaction.Hash := ""; transaction.Signature := "";
          transaction.ClientID := "alice"; transaction.PublicKey := "pk";
          transaction.ToClientID := "bob"; transaction.ChainID := "chain";
          transaction.TransactionType := 0; transaction.TransactionData := "pay";
          transaction.Value := 10; transaction.TransactionFee := 1;
          transaction.CreationDate := 1000 |};
     txnOut := ""; txnHash := ""; txnStatus := -1;
     txnError := None; txnCb := Some 1%nat;
     verifyStatus := -1; verifyOut := ""; verifyError := None |}.

(** A handle that was not submitted yet. *)
Definition fresh_handle : Transaction :=
  {| txn := demo.entity "T"; txnOut := ""; txnHash := ""; txnStatus := -1;
     txnError := None; txnCb := Some 1%nat;
     verifyStatus := -1; verifyOut := ""; verifyError := None |}.

(** A handle whose submission failed before any hash was known. *)
Definition failed_handle : Transaction :=
  {| txn := demo.entity ""; txnOut := ""; txnHash := ""; txnStatus := 2;
     txnError := Some "submit transaction failed. "; txnCb := Some 1%nat;
     verifyStatus := -1; verifyOut := ""; verifyError := None |}.

End bench.

(** * Properties *)

(** ** Machine integers *)

Lemma wrap_id z : Int64.in_range z -> Int64.wrap z = z.
Proof.
  unfold Int64.in_range, Int64.wrap, Int64.min_int, Int64.max_int. intros Hz.
  rewrite Z.mod_small by lia. lia.
Qed.

Lemma add_exact a b : Int64.in_range (a + b) -> Int64.add a b = a + b.
Proof. apply wrap_id. Qed.

(** The wrapped value differs from the integer by a multiple of 2^64. *)
Lemma wrap_spec z :
  exists q, Int64.wrap z = z - q * 18446744073709551616
            /\ -9223372036854775808 <= Int64.wrap z <= 9223372036854775807.
Proof.
  unfold Int64.wrap.
  change (2 ^ 63) with 9223372036854775808.
  change (2 ^ 64) with 18446744073709551616.
  exists ((z + 9223372036854775808) / 18446744073709551616).
  pose proof (Z.div_mod (z + 9223372036854775808) 18446744073709551616 ltac:(lia)).
  pose proof (Z.mod_pos_bound (z + 9223372036854775808) 18446744073709551616 ltac:(lia)).
  lia.
Qed.

(** ** Text *)

Lemma append_empty_r (s : string) : s +:+ "" = s.
Proof.
  induction s as [|c s IH]; [reflexivity |].
  change (String c (s +:+ "") = String c s). now rewrite IH.
Qed.

Lemma Sprintf_I4 (miner prev root receipts : string) (created round seed : Z) :
  fmt.Sprintf "%v:%v:%v:%v:%v:%v:%v"
    [fmt.OString miner; fmt.OString prev; fmt.OInt64 created; fmt.OInt64 round;
     fmt.OInt64 seed; fmt.OString root; fmt.OString receipts]
  = colon_join [miner; prev; fmt.decimal created; fmt.decimal round;
                fmt.decimal seed; root; receipts].
Proof.
  cbn [fmt.Sprintf fmt.verb_v fmt.extra].
  rewrite append_empty_r. reflexivity.
Qed.

Section Proofs.

Context `{Externals}.

(** The test of [isBlockExtends] is the comparison of the header's hash with
    the hash of the I4 text. *)
Lemma isBlockExtends_eqb (prevHash : string) (block : blockHeader.t) :
  isBlockExtends prevHash block
  = String.eqb (blockHeader.Hash block) (encryption_Hash (I4_data prevHash block)).
Proof.
  unfold isBlockExtends, I4_data. rewrite Sprintf_I4.
  now destruct (String.eqb _ _).
Qed.

(** C2. [isBlockExtends] accepts a header for a predecessor hash exactly
    when the header's hash is the chain hash of the colon-joined text
    miner_id:previous_hash:creation_date:round:round_random_seed:
    merkle_tree_root:receipt_merkle_tree_root, the integers in decimal. *)
Theorem isBlockExtends_iff_I4 (prevHash : string) (block : blockHeader.t) :
  isBlockExtends prevHash block = true
  <-> blockHeader.Hash block = encryption_Hash (I4_data prevHash block).
Proof.
  unfold isBlockExtends, I4_data. rewrite Sprintf_I4.
  destruct (String.eqb_spec (blockHeader.Hash block)
              (encryption_Hash
                 (colon_join
                    [blockHeader.MinerId block; prevHash;
                     fmt.decimal (blockHeader.CreationDate block);
                     fmt.decimal (blockHeader.Round block);
                     fmt.decimal (blockHeader.RoundRandomSeed block);
                     blockHeader.MerkleTreeRoot block;
                     blockHeader.ReceiptMerkleTreeRoot block]))) as [Heq | Hne].
  - split; [intros _; exact Heq | reflexivity].
  - split; [discriminate | intros Heq; contradiction].
Qed.

(** ** The handle's mutators and getters *)

Lemma status_guard (s k : Z) :
  negb (s =? k)%Z = true <-> s <> k.
Proof.
  destruct (Z.eqb_spec s k) as [-> | Hne]; simpl; split; congruence.
Qed.

(** C7. Once the submission status is no longer [StatusUnknown] each of
    [SetTransactionCallback], [SetTransactionFee] and [SetTransactionHash]
    returns the "transaction already exists" error and leaves the handle as
    it was; while the status is [StatusUnknown] each returns no error and
    sets its field. *)
Theorem mutators_guarded_by_status (t : Transaction)
    (cb : option TransactionCallback) (txnFee : Z) (hash : string) :
  (txnStatus t <> StatusUnknown ->
     SetTransactionCallback cb t
       = (Some "transaction already exists. cannot set transaction hash.", t)
     /\ SetTransactionFee txnFee t
       = (Some "transaction already exists. cannot set transaction fee.", t)
     /\ SetTransactionHash hash t
       = (Some "transaction already exists. cannot set transaction hash.", t))
  /\ (txnStatus t = StatusUnknown ->
     (exists t', SetTransactionCallback cb t = (None, t') /\ txnCb t' = cb)
     /\ (exists t', SetTransactionFee txnFee t = (None, t')
                    /\ transaction.TransactionFee (txn t') = txnFee)
     /\ (exists t', SetTransactionHash hash t = (None, t') /\ txnHash t' = hash)).
Proof.
  unfold SetTransactionCallback, SetTransactionFee, SetTransactionHash.
  split; intros Hst.
  - apply status_guard in Hst. rewrite Hst. repeat split.
  - rewrite Hst, Z.eqb_refl. cbn [negb].
    repeat split; eexists; split; reflexivity.
Qed.

(** C9, as amended. When the submission status is not [StatusSuccess] and no
    error was recorded, [GetTransactionError] calls [Error] on a nil error
    and panics; likewise [GetVerifyError] when the verify status is not
    [StatusSuccess] and [verifyError] is nil. A handle fresh from
    [newTransaction] is in both situations as soon as [StatusUnknown] and
    [StatusSuccess] differ. *)
Theorem error_getters_panic_on_nil (t : Transaction) :
  (txnError t = None -> txnStatus t <> StatusSuccess ->
     GetTransactionError t = Panicked nil_dereference)
  /\ (verifyError t = None -> verifyStatus t <> StatusSuccess ->
     GetVerifyError t = Panicked nil_dereference)
  /\ (StatusUnknown <> StatusSuccess ->
     forall entity cb txnFee,
       GetTransactionError (newTransaction entity cb txnFee) = Panicked nil_dereference
       /\ GetVerifyError (newTransaction entity cb txnFee) = Panicked nil_dereference).
Proof.
  unfold GetTransactionError, GetVerifyError.
  split; [| split].
  - intros Herr Hst. apply status_guard in Hst. now rewrite Hst, Herr.
  - intros Herr Hst. apply status_guard in Hst. now rewrite Hst, Herr.
  - intros Hst entity cb txnFee. apply status_guard in Hst.
    cbn [newTransaction txnStatus verifyStatus txnError verifyError].
    now rewrite Hst.
Qed.

(** With the status at [StatusSuccess] the getters return the empty text,
    whatever the recorded error. *)
Lemma error_getters_after_success (t : Transaction) :
  (txnStatus t = StatusSuccess -> GetTransactionError t = Returned "")
  /\ (verifyStatus t = StatusSuccess -> GetVerifyError t = Returned "").
Proof.
  unfold GetTransactionError, GetVerifyError.
  split; intros ->; now rewrite Z.eqb_refl.
Qed.

(** ** Expiration *)

Lemma past_expiration_dec (deadline lfb_creation_time now : Z) :
  (Z.min (if (lfb_creation_time =? 0)%Z then now else lfb_creation_time) now
     >? deadline)%Z = true
  <-> past_expiration deadline lfb_creation_time now.
Proof. unfold past_expiration. rewrite Z.gtb_ltb, Z.ltb_lt. lia. Qed.

(** C5. [isTransactionExpired] returns, and it returns [true] exactly when
    the minimum of the latest finalized block's creation time and the
    current time is greater than the creation date plus
    [defaultTxnExpirationSeconds], the current time standing in for a
    creation time of zero. The sum is the code's 64-bit sum; it is the
    mathematical sum whenever that fits 64 bits. The call sleeps for
    [defaultWaitSeconds] before it returns [false]. *)
Theorem isTransactionExpired_iff_rule (t : Transaction)
    (lfbCreationTime currentTime : Z) (w : world) :
  exists (b : bool) (w' : world),
    isTransactionExpired t lfbCreationTime currentTime w = Ret b w'
    /\ (b = true <->
          past_expiration
            (Int64.add (transaction.CreationDate (txn t)) defaultTxnExpirationSeconds)
            lfbCreationTime currentTime)
    /\ (Int64.in_range (transaction.CreationDate (txn t) + defaultTxnExpirationSeconds) ->
          (b = true <->
             past_expiration
               (transaction.CreationDate (txn t) + defaultTxnExpirationSeconds)
               lfbCreationTime currentTime))
    /\ w' = (if b then w else advance (ESleep defaultWaitSeconds) w).
Proof.
  unfold isTransactionExpired.
  pose proof (past_expiration_dec
    (Int64.add (transaction.CreationDate (txn t)) defaultTxnExpirationSeconds)
    lfbCreationTime currentTime) as Hdec.
  destruct (Z.min _ _ >? _)%Z eqn:Hcmp.
  - exists true, w. split; [reflexivity |]. split; [tauto |].
    split; [| reflexivity].
    intros Hfit. rewrite <- (add_exact _ _ Hfit). tauto.
  - exists false, (advance (ESleep defaultWaitSeconds) w).
    split; [reflexivity |].
    assert (Hno : ~ past_expiration
              (Int64.add (transaction.CreationDate (txn t)) defaultTxnExpirationSeconds)
              lfbCreationTime currentTime).
    { intros Hp. apply Hdec in Hp. discriminate. }
    split; [split; [discriminate | tauto] |].
    split; [| reflexivity].
    intros Hfit. rewrite <- (add_exact _ _ Hfit).
    split; [discriminate | tauto].
Qed.

(** ** Verify before any submission *)

(** C10. On a handle with an empty transaction hash and submission status
    [StatusUnknown], [Verify] returns its error at once: the goroutine is
    not started, the world sees no effect (no query, no callback) and the
    handle, with its verify status and outputs, is as it was. *)
Theorem Verify_rejects_unsubmitted (fuel : nat) (t : Transaction) (w : world) :
  txnHash t = "" ->
  txnStatus t = StatusUnknown ->
  Verify t w = Ret (Some "invalid transaction. cannot be verified.", t, false) w
  /\ Verify_and_wait fuel t w
     = Ret (Some "invalid transaction. cannot be verified.", t) w.
Proof.
  intros Hhash Hst.
  assert (HV : Verify t w
               = Ret (Some "invalid transaction. cannot be verified.", t, false) w).
  { unfold Verify. rewrite Hhash, Hst, Z.eqb_refl. reflexivity. }
  split; [exact HV |].
  unfold Verify_and_wait, bind. rewrite HV. reflexivity.
Qed.

(** ** Reading a confirmation *)

(** A confirmation that carries its transaction yields its header when the
    four checks pass, and an error and no header when one of them fails. *)
Lemma getBlockHeader_iff_checks (txnHash raw : string)
    (cfmBlock : gmap string string) (cfm : confirmation.t)
    (cfmTxn : transaction.Transaction) :
  cfmBlock !! "confirmation" = Some raw ->
  json_Unmarshal_confirmation raw = Ok cfm ->
  confirmation.Transaction cfm = Some cfmTxn ->
  (confirmation_checks txnHash cfm cfmTxn ->
     getBlockHeaderFromTransactionConfirmation txnHash cfmBlock
     = Returned (Ok (confirmation_header cfm)))
  /\ (~ confirmation_checks txnHash cfm cfmTxn ->
     exists msg,
       getBlockHeaderFromTransactionConfirmation txnHash cfmBlock
       = Returned (Err msg)).
Proof.
  intros Hraw Hcfm Htxn.
  unfold getBlockHeaderFromTransactionConfirmation, confirmation_checks.
  rewrite Hraw, Hcfm, Htxn.
  assert (Hext : isBlockExtends (confirmation.PreviousBlockHash cfm)
                   (confirmation_header cfm) = true
                 <-> confirmation.BlockHash cfm
                     = encryption_Hash
                         (I4_data (confirmation.PreviousBlockHash cfm)
                            (confirmation_header cfm))).
  { rewrite isBlockExtends_eqb. apply String.eqb_eq. }
  destruct (String.eqb_spec txnHash (transaction.Hash cfmTxn)) as [Hh | Hh];
    cbn [negb].
  2: { split; [intros [Heq _]; congruence | intros _; eauto]. }
  destruct (VerifyMerklePath (transaction.Hash cfmTxn) _ _) eqn:Hm; cbn [negb].
  2: { split; [intros (_ & Hc & _); discriminate | intros _; eauto]. }
  destruct (VerifyMerklePath (receipt_GetHash cfmTxn) _ _) eqn:Hr; cbn [negb].
  2: { split; [intros (_ & _ & Hc & _); discriminate | intros _; eauto]. }
  destruct (isBlockExtends _ _) eqn:He.
  - split; [reflexivity |].
    intros Hn. exfalso. apply Hn. repeat split; try congruence.
    now apply Hext.
  - split; [| intros _; eauto].
    intros (_ & _ & _ & Hc). apply Hext in Hc. discriminate.
Qed.

(** A reply without the "confirmation" entry, or with one that does not
    decode, yields an error and no header. *)
Lemma getBlockHeader_absent_or_undecoded (txnHash : string)
    (cfmBlock : gmap string string) :
  (cfmBlock !! "confirmation" = None \/
   exists raw err, cfmBlock !! "confirmation" = Some raw
                   /\ json_Unmarshal_confirmation raw = Err err) ->
  exists msg,
    getBlockHeaderFromTransactionConfirmation txnHash cfmBlock = Returned (Err msg).
Proof.
  unfold getBlockHeaderFromTransactionConfirmation.
  intros [Hnone | (raw & err & Hraw & Herr)].
  - rewrite Hnone. eauto.
  - rewrite Hraw, Herr. eauto.
Qed.

(** C3, at the input where the code departs from it. A confirmation that
    decodes but carries no transaction (the "txn" entry is optional in the
    encoding) fails the first check, the comparison of its transaction hash
    with the expected one; the function then neither returns an error nor a
    header: reading the hash through the nil transaction panics. *)
Theorem getBlockHeader_panics_without_txn (txnHash raw : string)
    (cfmBlock : gmap string string) (cfm : confirmation.t) :
  cfmBlock !! "confirmation" = Some raw ->
  json_Unmarshal_confirmation raw = Ok cfm ->
  confirmation.Transaction cfm = None ->
  getBlockHeaderFromTransactionConfirmation txnHash cfmBlock
  = Panicked nil_dereference.
Proof.
  intros Hraw Hcfm Htxn.
  unfold getBlockHeaderFromTransactionConfirmation.
  now rewrite Hraw, Hcfm, Htxn.
Qed.

(** ** Computations in the world *)

Lemma bind_Ret {A B : Type} (c : M A) (k : A -> M B) (w w' : world) (b : B) :
  bind c k w = Ret b w' ->
  exists a w1, c w = Ret a w1 /\ k a w1 = Ret b w'.
Proof.
  unfold bind. destruct (c w) as [a w1 | msg w1 | w1]; intros Hk;
    [eauto | discriminate | discriminate].
Qed.

Lemma appends_ret {A : Type} (a : A) : appends (ret a).
Proof. intros w. exists []. cbn. now rewrite app_nil_r. Qed.

Lemma appends_panic {A : Type} (msg : string) : appends (@panic A msg).
Proof. intros w. exists []. cbn. now rewrite app_nil_r. Qed.

Lemma appends_pending {A : Type} : appends (@pending A).
Proof. intros w. exists []. cbn. now rewrite app_nil_r. Qed.

Lemma appends_emit (e : event) : appends (emit e).
Proof. intros w. exists [e]. reflexivity. Qed.

Lemma appends_bind {A B : Type} (c : M A) (k : A -> M B) :
  appends c -> (forall a, appends (k a)) -> appends (bind c k).
Proof.
  intros Hc Hk w. unfold bind.
  destruct (Hc w) as [evs Hevs].
  destruct (c w) as [a w1 | msg w1 | w1]; cbn in Hevs.
  - destruct (Hk a w1) as [evs' Hevs'].
    exists (evs ++ evs')%list. now rewrite Hevs', Hevs, app_assoc.
  - exists evs. exact Hevs.
  - exists evs. exact Hevs.
Qed.

Lemma appends_receive {S : Type} (n : nat) (replies : list util.GetResponse)
    (handle : S -> util.GetResponse -> go_result S) (s : S) :
  appends (receive n replies handle s).
Proof.
  revert replies s. induction n as [|n IH]; intros replies s; cbn.
  - apply appends_ret.
  - destruct replies as [|rsp rest]; [apply appends_pending |].
    destruct (handle s rsp); [apply IH | apply appends_panic].
Qed.

(** The receiving loop does not act on the world. *)
Lemma receive_world {S : Type} (n : nat) (replies : list util.GetResponse)
    (handle : S -> util.GetResponse -> go_result S) (s : S) (w : world) :
  final_world (receive n replies handle s w) = w.
Proof.
  revert replies s. induction n as [|n IH]; intros replies s; cbn.
  - reflexivity.
  - destruct replies as [|rsp rest]; [reflexivity |].
    destruct (handle s rsp); [apply IH | reflexivity].
Qed.

(** What holds of the loop's variables at the start and is kept by every
    pass holds when the loop returns. *)
Lemma receive_invariant {S : Type} (P : S -> Prop) (n : nat)
    (replies : list util.GetResponse)
    (handle : S -> util.GetResponse -> go_result S) (s s' : S) (w w' : world) :
  (forall s0 rsp s1, P s0 -> handle s0 rsp = Returned s1 -> P s1) ->
  P s ->
  receive n replies handle s w = Ret s' w' ->
  P s'.
Proof.
  intros Hstep. revert replies s. induction n as [|n IH]; intros replies s Hs; cbn.
  - unfold ret. congruence.
  - destruct replies as [|rsp rest]; [discriminate |].
    destruct (handle s rsp) as [s1 | msg] eqn:Hh; [| discriminate].
    apply IH. eapply Hstep; eauto.
Qed.

Lemma appends_getTransactionConfirmation (numSharders : Z) (txnHash : string) :
  appends (getTransactionConfirmation numSharders txnHash).
Proof.
  unfold getTransactionConfirmation.
  apply appends_bind.
  - intros w. eexists. reflexivity.
  - intros replies. apply appends_bind; [apply appends_receive |].
    intros st. destruct (maxConfirmation st =? 0)%Z; apply appends_ret.
Qed.

Lemma appends_getBlockInfoByRound (numSharders round : Z) (content : string) :
  appends (getBlockInfoByRound numSharders round content).
Proof.
  unfold getBlockInfoByRound.
  apply appends_bind.
  - intros w. eexists. reflexivity.
  - intros replies. apply appends_bind; [apply appends_receive |].
    intros st. destruct (maxConsensus st =? 0)%Z; apply appends_ret.
Qed.

Lemma appends_validateChain_loop (fuel : nat) (confirmRound : Z) (st : chain_walk) :
  appends (validateChain_loop fuel confirmRound st).
Proof.
  revert st. induction fuel as [|fuel IH]; intros st; cbn [validateChain_loop].
  - apply appends_pending.
  - assert (Hfinish : forall nextBlock,
              appends (match extend confirmRound st nextBlock with
                       | (st', None) => validateChain_loop fuel confirmRound st'
                       | (st', Some b) => ret (b, st')
                       end)).
    { intros nextBlock. destruct (extend confirmRound st nextBlock) as [st' [b|]];
        [apply appends_ret | apply IH]. }
    apply appends_bind; [apply appends_getBlockInfoByRound |].
    intros [nextBlock | err]; [apply Hfinish |].
    apply appends_bind; [apply appends_emit |]. intros _.
    apply appends_bind; [apply appends_getBlockInfoByRound |].
    intros [nextBlock | err']; [apply Hfinish |].
    apply appends_bind; [apply appends_emit | intros _; apply IH].
Qed.

Lemma appends_completeVerify (status : Z) (out : string) (err : option string)
    (t : Transaction) :
  appends (completeVerify status out err t).
Proof.
  unfold completeVerify. destruct (txnCb _).
  - apply appends_bind; [apply appends_emit | intros _; apply appends_ret].
  - apply appends_ret.
Qed.

Lemma appends_confirm (fuel : nat) (t : Transaction) (r : confirmation_result) :
  appends (confirm fuel t r).
Proof.
  unfold confirm. destruct (cr_block r) as [confirmBlock |]; [| apply appends_panic].
  apply appends_bind.
  - unfold validateChain. apply appends_bind; [apply appends_validateChain_loop |].
    intros r0. apply appends_ret.
  - intros [|]; [| apply appends_ret].
    destruct (json_Marshal_object _);
      (apply appends_bind; [apply appends_completeVerify | intros t'; apply appends_ret]).
Qed.

(** ** One pass of the confirmation loop *)

Lemma appends_give_up_or_retry (t : Transaction) (lfbCreationTime tn : Z) :
  appends (give_up_or_retry t lfbCreationTime tn).
Proof.
  unfold give_up_or_retry, isTransactionExpired.
  apply appends_bind.
  - destruct (Z.min _ _ >? _)%Z; [apply appends_ret |].
    apply appends_bind; [apply appends_emit | intros _; apply appends_ret].
  - intros [|]; [| apply appends_ret].
    apply appends_bind; [apply appends_completeVerify | intros t'; apply appends_ret].
Qed.

(** A pass that gives up or retries asks the sharders nothing more: it
    reports the failure when the transaction is past its expiration, and
    sleeps and comes back otherwise. *)
Lemma give_up_or_retry_cases (t : Transaction) (lfbCreationTime tn : Z) (w : world) :
  let deadline :=
    Int64.add (transaction.CreationDate (txn t)) defaultTxnExpirationSeconds in
  exists rest,
    trace (final_world (give_up_or_retry t lfbCreationTime tn w)) = (trace w ++ rest)%list
    /\ forallb (fun e => negb (is_query e)) rest = true
    /\ (past_expiration deadline lfbCreationTime tn ->
        exists w', give_up_or_retry t lfbCreationTime tn w
                   = Ret (Finished (with_verify StatusError "" verify_failed t)) w')
    /\ (~ past_expiration deadline lfbCreationTime tn ->
        exists w', give_up_or_retry t lfbCreationTime tn w = Ret Again w').
Proof.
  intros deadline.
  pose proof (past_expiration_dec deadline lfbCreationTime tn) as Hdec.
  unfold give_up_or_retry, isTransactionExpired, bind. fold deadline.
  destruct (Z.min _ _ >? _)%Z.
  - unfold completeVerify, bind, ret, emit.
    cbn [txnCb with_verify verifyStatus].
    destruct (txnCb t) as [cb |]; cbn [final_world advance trace].
    + exists [EOnVerifyComplete cb StatusError].
      split; [reflexivity |]. split; [reflexivity |].
      split; [intros _; eauto | intros Hn; exfalso; apply Hn; now apply Hdec].
    + exists []. split; [now rewrite app_nil_r |]. split; [reflexivity |].
      split; [intros _; eauto | intros Hn; exfalso; apply Hn; now apply Hdec].
  - unfold Sleep, emit, ret. cbn [final_world advance trace].
    exists [ESleep defaultWaitSeconds].
    split; [reflexivity |]. split; [reflexivity |].
    split; [intros Hp; apply Hdec in Hp; discriminate | intros _; eauto].
Qed.

(** Whatever follows it, a call of [getTransactionConfirmation] first puts
    its query on the trace. *)
Lemma first_event_of_confirmation_query {A : Type} (numSharders : Z)
    (txnHash : string) (k : confirmation_result -> M A) (w : world) :
  (forall r, appends (k r)) ->
  exists rest,
    trace (final_world (bind (getTransactionConfirmation numSharders txnHash) k w))
    = (trace w ++ EQuery numSharders (confirmation_query txnHash) :: rest)%list.
Proof.
  intros Hk.
  unfold getTransactionConfirmation, queryFromSharders, bind at 1 2 3.
  fold (confirmation_query txnHash).
  set (w2 := advance (EQuery numSharders (confirmation_query txnHash)) w).
  match goal with
  | |- context [ receive ?n ?l ?h ?s w2 ] =>
      pose proof (receive_world n l h s w2) as Hw;
      destruct (receive n l h s w2) as [st w3 | msg w3 | w3]
  end; cbn [final_world] in Hw; subst w3.
  - destruct (maxConfirmation st =? 0)%Z; unfold ret;
      match goal with
      | |- context [ k ?r w2 ] => destruct (Hk r w2) as [evs Hevs]
      end;
      exists evs; rewrite Hevs; subst w2; cbn [advance trace];
      now rewrite <- app_assoc.
  - exists []. reflexivity.
  - exists []. reflexivity.
Qed.

(** C6, as amended. In a pass whose single-sharder probe finds no
    confirmation, the quorum query to [getMinShardersVerify] sharders is
    issued exactly when the later of the probe's latest-finalized-block time
    (zero when unknown) and the current time is before the creation date
    plus [defaultTxnExpirationSeconds]. When that guard fails the pass asks
    the sharders nothing more: it reports the failure if the transaction is
    past its expiration window, and otherwise sleeps and probes again. *)
Theorem verify_pass_escalates_iff_guard (fuel : nat) (t : Transaction)
    (w w1 : world) (probe : confirmation_result) :
  getTransactionConfirmation 1 (txnHash t) w = Ret probe w1 ->
  cr_err probe <> None ->
  let tn := common_Now (tick w1) in
  let lfbTime := blockHeader.CreationDate (cr_lfb probe) in
  let deadline :=
    Int64.add (transaction.CreationDate (txn t)) defaultTxnExpirationSeconds in
  let after := trace (final_world (verify_pass fuel t w)) in
  (Z.max lfbTime tn < deadline ->
     exists rest,
       after = (trace w1 ++ ENow
                  :: EQuery getMinShardersVerify (confirmation_query (txnHash t))
                  :: rest)%list)
  /\ (deadline <= Z.max lfbTime tn ->
     exists rest,
       after = (trace w1 ++ ENow :: rest)%list
       /\ forallb (fun e => negb (is_query e)) rest = true
       /\ (past_expiration deadline lfbTime tn ->
           exists w', verify_pass fuel t w
                      = Ret (Finished (with_verify StatusError "" verify_failed t)) w')
       /\ (~ past_expiration deadline lfbTime tn ->
           exists w', verify_pass fuel t w = Ret Again w')).
Proof.
  intros Hprobe Herr. cbv zeta.
  set (tn := common_Now (tick w1)).
  set (lfbTime := blockHeader.CreationDate (cr_lfb probe)).
  set (deadline :=
         Int64.add (transaction.CreationDate (txn t)) defaultTxnExpirationSeconds).
  set (escalate :=
         bind (getTransactionConfirmation getMinShardersVerify (txnHash t))
           (fun quorum =>
              match cr_err quorum with
              | Some _ =>
                  give_up_or_retry t (blockHeader.CreationDate (cr_lfb quorum)) tn
              | None => confirm fuel t quorum
              end)).
  assert (Hpass : verify_pass fuel t w
                  = (if (Z.max lfbTime tn <? deadline)%Z then escalate
                     else give_up_or_retry t lfbTime tn) (advance ENow w1)).
  { unfold verify_pass, bind at 1. rewrite Hprobe.
    destruct (cr_err probe) as [err |]; [reflexivity | congruence]. }
  rewrite Hpass. clear Hpass.
  destruct (Z.ltb_spec (Z.max lfbTime tn) deadline) as [Hlt | Hge].
  - split; [intros _ | intros Hge; exfalso; lia].
    destruct (first_event_of_confirmation_query getMinShardersVerify (txnHash t)
                (fun quorum =>
                   match cr_err quorum with
                   | Some _ =>
                       give_up_or_retry t (blockHeader.CreationDate (cr_lfb quorum)) tn
                   | None => confirm fuel t quorum
                   end)
                (advance ENow w1)) as [rest Hrest].
    { intros quorum. destruct (cr_err quorum);
        [apply appends_give_up_or_retry | apply appends_confirm]. }
    exists rest. subst escalate. rewrite Hrest. cbn [advance trace].
    now rewrite <- app_assoc.
  - split; [intros Hlt; exfalso; lia | intros _].
    destruct (give_up_or_retry_cases t lfbTime tn (advance ENow w1))
      as (rest & Htrace & Hquiet & Hexp & Hno).
    exists rest. fold deadline in Hexp, Hno.
    split; [| split; [exact Hquiet | split; assumption]].
    rewrite Htrace. cbn [advance trace]. now rewrite <- app_assoc.
Qed.

(** ** The chain walk *)

Lemma walk_inv_start (confirmBlock : blockHeader.t) :
  walk_inv confirmBlock 0 (chain_start confirmBlock).
Proof.
  unfold walk_inv, chain_start, Int64.add. cbn.
  split; auto.
Qed.

(** One pass keeps the walk's invariant when it continues, with one more
    header when the one it was given extends the chain, and leaves the walk
    where the required length is reached when it returns [true]. *)
Lemma extend_keeps_walk (confirmBlock nextBlock : blockHeader.t) (n : nat)
    (st st' : chain_walk) (res : option bool) :
  Int64.in_range (blockHeader.Round confirmBlock) ->
  Int64.in_range getMinRequiredChainLength ->
  walk_inv confirmBlock n st ->
  extend (blockHeader.Round confirmBlock) st nextBlock = (st', res) ->
  let n' := if isBlockExtends (currentBlockHash st) nextBlock then S n else n in
  match res with
  | None => walk_inv confirmBlock n' st'
  | Some true =>
      round st = blockHeader.Round confirmBlock + 1 + Z.of_nat n
      /\ round st' = blockHeader.Round confirmBlock + 1 + Z.of_nat n'
      /\ blockHeader.Round confirmBlock + getMinRequiredChainLength <= round st'
  | Some false => True
  end.
Proof.
  unfold Int64.in_range, Int64.min_int, Int64.max_int.
  change (2 ^ 63) with 9223372036854775808.
  intros HcR Hlen (Hround & Hk) Hext.
  unfold walk_inv, Int64.max_int in *.
  change (2 ^ 63) with 9223372036854775808 in *.
  cbv zeta in *.
  set (cR := blockHeader.Round confirmBlock) in *.
  pose proof (Nat2Z.is_nonneg n) as Hn.
  unfold extend in Hext.
  destruct (wrap_spec (cR + (1 + Z.of_nat n))) as (q0 & Hq0 & Hr0).
  rewrite <- Hround in Hq0, Hr0.
  destruct (isBlockExtends (currentBlockHash st) nextBlock) eqn:Hextends.
  - (* the header extends the chain: the round moves on *)
    cbn [round] in Hext. unfold Int64.add, Int64.sub in Hext.
    destruct (wrap_spec (round st + 1)) as (q1 & Hq1 & Hr1).
    destruct (wrap_spec (Int64.wrap (round st + 1) - cR)) as (q2 & Hq2 & Hr2).
    set (r1 := Int64.wrap (round st + 1)) in *.
    set (d := Int64.wrap (r1 - cR)) in *.
    rewrite Nat2Z.inj_succ.
    destruct (Z.gtb_spec r1 cR) as [Hgt | Hle]; cbn [andb] in Hext.
    + destruct (Z.ltb_spec d getMinRequiredChainLength) as [Hlt | Hge].
      * inversion Hext; subst st' res; clear Hext. cbn [round].
        assert (Hnowrap : round st = cR + 1 + Z.of_nat n
                          /\ r1 = cR + 2 + Z.of_nat n) by lia.
        destruct Hnowrap as [Hr Hr1'].
        split.
        -- destruct (wrap_spec (cR + (1 + Z.succ (Z.of_nat n))))
             as (q3 & Hq3 & Hr3). lia.
        -- right. lia.
      * destruct (Z.ltb_spec r1 cR) as [Hlt' | Hge']; [lia |].
        inversion Hext; subst st' res; clear Hext. cbn [round].
        assert (Hnowrap : round st = cR + 1 + Z.of_nat n
                          /\ r1 = cR + 2 + Z.of_nat n) by lia.
        lia.
    + destruct (Z.ltb_spec r1 cR) as [Hlt' | Hge'].
      * inversion Hext; subst; exact I.
      * exfalso. lia.
  - (* the header does not extend the chain: the walk stays where it is *)
    unfold Int64.sub in Hext.
    destruct (wrap_spec (round st - cR)) as (q2 & Hq2 & Hr2).
    set (d := Int64.wrap (round st - cR)) in *.
    destruct (Z.gtb_spec (round st) cR) as [Hgt | Hle]; cbn [andb] in Hext.
    + destruct (Z.ltb_spec d getMinRequiredChainLength) as [Hlt | Hge].
      * inversion Hext; subst st' res; clear Hext. split; auto.
      * destruct (Z.ltb_spec (round st) cR) as [Hlt' | Hge']; [lia |].
        inversion Hext; subst st' res; clear Hext. lia.
    + destruct (Z.ltb_spec (round st) cR) as [Hlt' | Hge'].
      * inversion Hext; subst; exact I.
      * exfalso. lia.
Qed.

(** ** Worlds of a run *)

Lemma reaches_refl (w : world) : reaches w w.
Proof. exists []. cbn. rewrite app_nil_r. split; [reflexivity | lia]. Qed.




Lemma steady_panic {A : Type} (msg : string) : steady (@panic A msg).
Proof. intros w. apply reaches_refl. Qed.

Lemma steady_pending {A : Type} : steady (@pending A).
Proof. intros w. apply reaches_refl. Qed.










(** ** The headers a walk has verified *)







(** ** From a successful verification back to the walk *)

Lemma completeVerify_Ret (status : Z) (out : string) (err : option string)
    (t t' : Transaction) (w w' : world) :
  completeVerify status out err t w = Ret t' w' ->
  t' = with_verify status out err t.
Proof.
  unfold completeVerify, bind, emit, ret.
  destruct (txnCb _); congruence.
Qed.

Lemma give_up_or_retry_Finished (t t' : Transaction) (lfbCreationTime tn : Z)
    (w w' : world) :
  give_up_or_retry t lfbCreationTime tn w = Ret (Finished t') w' ->
  verifyStatus t' = StatusError.
Proof.
  unfold give_up_or_retry. intros Hrun.
  apply bind_Ret in Hrun as (expired & w1 & _ & Hrun).
  destruct expired; [| discriminate].
  apply bind_Ret in Hrun as (t1 & w2 & Hc & Hrun).
  apply completeVerify_Ret in Hc. unfold ret in Hrun.
  inversion Hrun; subst. reflexivity.
Qed.




(** A pass that ends the loop with [StatusSuccess] went through [confirm]
    on the answer of one of its two queries. *)
Lemma verify_pass_success (fuel : nat) (t t' : Transaction) (w w' : world) :
  StatusSuccess <> StatusError ->
  verify_pass fuel t w = Ret (Finished t') w' ->
  verifyStatus t' = StatusSuccess ->
  exists numSharders r wq wc,
    getTransactionConfirmation numSharders (txnHash t) wq = Ret r wc
    /\ confirm fuel t r wc = Ret (Finished t') w'.
Proof.
  intros Hdistinct Hrun Hstatus. unfold verify_pass in Hrun.
  apply bind_Ret in Hrun as (probe & w1 & Hprobe & Hrun).
  destruct (cr_err probe); [| eauto 8].
  apply bind_Ret in Hrun as (tn & w2 & _ & Hrun).
  destruct (_ <? _)%Z.
  - apply bind_Ret in Hrun as (quorum & w3 & Hquorum & Hrun).
    destruct (cr_err quorum); [| eauto 8].
    apply give_up_or_retry_Finished in Hrun. congruence.
  - apply give_up_or_retry_Finished in Hrun. congruence.
Qed.




End Proofs.

(** ** Signature schemes *)

(** C8. [NewSignatureScheme] returns a scheme for "ed25519" and for
    "bls0chain", and panics, naming the string, for every other one. *)
Theorem NewSignatureScheme_known_or_panic (sigScheme : string) :
  zcncrypto.NewSignatureScheme "ed25519" = Returned zcncrypto.ED255190chainScheme
  /\ zcncrypto.NewSignatureScheme "bls0chain" = Returned zcncrypto.BLS0ChainScheme
  /\ (sigScheme <> "ed25519" -> sigScheme <> "bls0chain" ->
      zcncrypto.NewSignatureScheme sigScheme
      = Panicked ("unknown signature scheme: " +:+ sigScheme)).
Proof.
  split; [reflexivity |]. split; [reflexivity |].
  intros Hed Hbls. unfold zcncrypto.NewSignatureScheme.
  apply String.eqb_neq in Hed. apply String.eqb_neq in Hbls.
  rewrite Hed, Hbls.
  cbn [fmt.Sprintf fmt.verb_v fmt.extra]. now rewrite append_empty_r.
Qed.

(** ** The properties at work in the small world *)

#[local] Existing Instance demo.externals.



(** A confirmation without its transaction makes the reader panic. *)
Lemma getBlockHeader_panics_in_demo :
  getBlockHeaderFromTransactionConfirmation "T"
    (<["confirmation" := "confirmation without txn"]> ∅)
  = Panicked nil_dereference.
Proof.
  apply (getBlockHeader_panics_without_txn "T" "confirmation without txn"
           (<["confirmation" := "confirmation without txn"]> ∅) (demo.cfm None));
    reflexivity.
Defined.

(** The same confirmation with its transaction passes the four checks. *)
Lemma getBlockHeader_accepts_in_demo :
  getBlockHeaderFromTransactionConfirmation "T"
    (<["confirmation" := "confirmation of T"]> ∅)
  = Returned (Ok (confirmation_header (demo.cfm (Some (demo.entity "T"))))).
Proof. vm_compute. reflexivity. Qed.

(** Transaction [U] at time 1070, created at 1000 with sixty seconds to
    live: the probe finds no confirmation and reports a latest finalized
    block of time 1050. By the expiration rule the transaction is not
    expired (1050 is not past 1060), yet the pass sends no query to three
    sharders: it sleeps and goes back to the probe. *)
Lemma verify_pass_unexpired_without_quorum :
  exists (probe : confirmation_result) (w1 w' : world),
    getTransactionConfirmation 1 "U" demo.start = Ret probe w1
    /\ cr_err probe <> None
    /\ blockHeader.CreationDate (cr_lfb probe) = 1050
    /\ common_Now (tick w1) = 1070
    /\ ~ past_expiration (1000 + 60) 1050 1070
    /\ verify_pass 10 (demo.handle "U" 0) demo.start = Ret Again w'
    /\ trace w' = [EQuery 1 (confirmation_query "U"); ENow; ESleep defaultWaitSeconds]
    /\ (forall query, ~ In (EQuery getMinShardersVerify query) (trace w')).
Proof.
  eexists. eexists. eexists.
  split; [vm_compute; reflexivity |].
  split; [discriminate |].
  split; [reflexivity |].
  split; [reflexivity |].
  split; [unfold past_expiration; cbn; lia |].
  split; [vm_compute; reflexivity |].
  split; [reflexivity |].
  intros query Hin. cbn in Hin.
  destruct Hin as [Heq | [Heq | [Heq | []]]]; discriminate.
Qed.

(** On that pass the guard of the escalation fails (1070 is not before
    1060): after the probe and the reading of the clock nothing more is
    asked of the sharders. *)
Lemma verify_pass_guard_in_demo :
  exists rest,
    trace (final_world (verify_pass 10 (demo.handle "U" 0) demo.start))
    = (trace (advance (EQuery 1 (confirmation_query "U")) demo.start)
         ++ ENow :: rest)%list
    /\ forallb (fun e => negb (is_query e)) rest = true.
Proof.
  destruct (verify_pass_escalates_iff_guard 10 (demo.handle "U" 0) demo.start
              (advance (EQuery 1 (confirmation_query "U")) demo.start)
              {| cr_block := None; cr_confirmation := None;
                 cr_lfb := demo.lfb1050;
                 cr_err := Some "transaction not found" |})
    as [_ Hno].
  - vm_compute. reflexivity.
  - discriminate.
  - destruct Hno as (rest & Htrace & Hquiet & _).
    + vm_compute. discriminate.
    + exists rest. split; assumption.
Defined.

(** With both times before the deadline the pass escalates: the second
    query goes to three sharders. *)
Lemma verify_pass_escalates_in_demo :
  exists w',
    verify_pass 10 demo.young_handle demo.start = Ret Again w'
    /\ trace w' = [EQuery 1 (confirmation_query "U"); ENow;
                   EQuery 3 (confirmation_query "U"); ESleep defaultWaitSeconds].
Proof. eexists. split; vm_compute; reflexivity. Qed.

Lemma mutators_in_demo :
  (exists t', SetTransactionFee 7 (demo.handle "" (-1)) = (None, t')
              /\ transaction.TransactionFee (txn t') = 7)
  /\ SetTransactionFee 7 (demo.handle "T" 0)
     = (Some "transaction already exists. cannot set transaction fee.",
        demo.handle "T" 0).
Proof.
  destruct (mutators_guarded_by_status (demo.handle "" (-1)) None 7 "h")
    as [_ Hunknown].
  destruct (mutators_guarded_by_status (demo.handle "T" 0) None 7 "h")
    as [Hsubmitted _].
  split.
  - apply Hunknown. reflexivity.
  - apply Hsubmitted. vm_compute. discriminate.
Defined.

(** A handle whose submission succeeded records no error, and
    [GetTransactionError] returns the empty text on it: no panic. *)
Lemma GetTransactionError_returns_after_success :
  txnError (demo.handle "T" 0) = None
  /\ txnStatus (demo.handle "T" 0) = StatusSuccess
  /\ GetTransactionError (demo.handle "T" 0) = Returned ""
  /\ GetTransactionError (demo.handle "T" 0) <> Panicked nil_dereference.
Proof. repeat split; [vm_compute; discriminate]. Qed.

Lemma error_getters_panic_in_demo :
  GetTransactionError (demo.handle "T" 2) = Panicked nil_dereference
  /\ GetVerifyError (demo.handle "T" 2) = Panicked nil_dereference.
Proof.
  destruct (error_getters_panic_on_nil (demo.handle "T" 2)) as (Htxn & Hverify & _).
  split.
  - apply Htxn; [reflexivity | vm_compute; discriminate].
  - apply Hverify; [reflexivity | vm_compute; discriminate].
Defined.

Lemma Verify_rejects_in_demo :
  Verify (demo.handle "" (-1)) demo.start
  = Ret (Some "invalid transaction. cannot be verified.", demo.handle "" (-1), false)
        demo.start
  /\ Verify_and_wait 10 (demo.handle "" (-1)) demo.start
     = Ret (Some "invalid transaction. cannot be verified.", demo.handle "" (-1))
           demo.start.
Proof.
  apply (Verify_rejects_unsubmitted 10 (demo.handle "" (-1)) demo.start);
    reflexivity.
Defined.

Lemma NewSignatureScheme_in_demo :
  zcncrypto.NewSignatureScheme "rsa" = Panicked "unknown signature scheme: rsa".
Proof.
  destruct (NewSignatureScheme_known_or_panic "rsa") as (_ & _ & Hother).
  apply Hother; discriminate.
Defined.

(** The expiration rule on the times of the pass above, and a minute later. *)
Lemma isTransactionExpired_in_demo :
  isTransactionExpired (demo.handle "U" 0) 1050 1070 demo.start
  = Ret false (advance (ESleep defaultWaitSeconds) demo.start)
  /\ isTransactionExpired (demo.handle "U" 0) 1110 1130 demo.start
     = Ret true demo.start.
Proof. split; reflexivity. Qed.

(** * Further properties of the transaction file *)

Lemma sub_exact' a b :
  -9223372036854775808 <= a - b <= 9223372036854775807 -> Int64.sub a b = a - b.
Proof.
  intros Hr. unfold Int64.sub. destruct (wrap_spec (a - b)) as (q & Hq & Hb). lia.
Qed.

Section MoreProofs.

Context `{Externals}.

(** ** The receiving loop *)

(** The loop returns what the passes over the first [n] answers leave, once
    [n] answers have come; a pass that panics ends it; otherwise it waits. *)
Lemma receive_eq {S : Type} (n : nat) (replies : list util.GetResponse)
    (handle : S -> util.GetResponse -> go_result S) (s : S) (w : world) :
  receive n replies handle s w
  = match fold_replies handle s (take n replies) with
    | Panicked msg => Panic msg w
    | Returned s' => if (n <=? length replies)%nat then Ret s' w else Pending w
    end.
Proof.
  revert replies s. induction n as [| n IH]; intros replies s.
  - reflexivity.
  - destruct replies as [| rsp rest]; [reflexivity |].
    cbn [receive take firstn fold_replies length].
    destruct (handle s rsp) as [s' | msg]; [| reflexivity].
    rewrite IH. reflexivity.
Qed.

(** X17. [getTransactionConfirmation] and [getBlockInfoByRound] return only
    once as many answers as sharders asked have arrived: with fewer answers
    neither returns a result, whatever the answers that did arrive say. *)
Theorem queries_wait_for_every_answer (numSharders round : Z)
    (txnHash content : string) (w : world) :
  ((length (sharders_reply (tick w) numSharders (confirmation_query txnHash))
      < Z.to_nat numSharders)%nat ->
   forall r w', getTransactionConfirmation numSharders txnHash w <> Ret r w')
  /\ ((length (sharders_reply (tick w) numSharders (round_query round content))
         < Z.to_nat numSharders)%nat ->
      forall r w', getBlockInfoByRound numSharders round content w <> Ret r w').
Proof.
  split; intros Hfew r w'; apply Nat.leb_gt in Hfew.
  - unfold getTransactionConfirmation, bind at 1 2, queryFromSharders.
    fold (confirmation_query txnHash). rewrite receive_eq, Hfew.
    destruct (fold_replies _ _ _); discriminate.
  - unfold getBlockInfoByRound, bind at 1 2, queryFromSharders.
    fold (round_query round content). rewrite receive_eq, Hfew.
    destruct (fold_replies _ _ _); discriminate.
Qed.

(** ** Starting a verification *)

Lemma Verify_start (t : Transaction) (w : world) :
  exists t' w',
    (t2 <- (if (transaction.CreationDate (txn t) =? 0)%Z then
              now <- Now ;;
              ret (with_txn (transaction.set_CreationDate now (txn t)) t)
            else ret t) ;;
     ret (None, t2, true)) w = Ret (@None string, t', true) w'
    /\ txnHash t' = txnHash t
    /\ (transaction.CreationDate (txn t) <> 0 -> t' = t /\ w' = w)
    /\ (transaction.CreationDate (txn t) = 0 ->
        transaction.CreationDate (txn t') = common_Now (tick w)
        /\ w' = advance ENow w).
Proof.
  unfold bind, Now, ret.
  destruct (Z.eqb_spec (transaction.CreationDate (txn t)) 0) as [Hz | Hnz].
  - eexists. eexists. split; [reflexivity |].
    split; [reflexivity |]. split; [congruence |]. intros _. split; reflexivity.
  - exists t, w. split; [reflexivity |].
    split; [reflexivity |]. split; [auto | congruence].
Qed.

(** X9. [Verify] always returns, and it returns an error exactly when the
    handle has no transaction hash and either was never submitted (status
    [StatusUnknown]) or was submitted with success but no hash can be read
    from the miners' answer. With an error the world is untouched and no
    goroutine is started; without one the goroutine is started. *)
Theorem Verify_error_iff (t : Transaction) (w : world) :
  exists (err : option string) (t' : Transaction) (started : bool) (w' : world),
    Verify t w = Ret (err, t', started) w'
    /\ started = match err with Some _ => false | None => true end
    /\ (err <> None <->
          txnHash t = ""
          /\ (txnStatus t = StatusUnknown
              \/ (txnStatus t = StatusSuccess /\ fst (GetTransactionHash t) = "")))
    /\ (err <> None ->
          w' = w /\ err = Some "invalid transaction. cannot be verified.").
Proof.
  unfold Verify.
  destruct (String.eqb_spec (txnHash t) "") as [Hh | Hh]; cbn [andb].
  - destruct (Z.eqb_spec (txnStatus t) StatusUnknown) as [Hu | Hu].
    + eexists. exists t, false, w. split; [reflexivity |].
      split; [reflexivity |]. split; [| auto].
      split; [intros _; auto | discriminate].
    + destruct (Z.eqb_spec (txnStatus t) StatusSuccess) as [Hs | Hs].
      * destruct (GetTransactionHash t) as [h t1] eqn:Hget. cbn [fst].
        destruct (String.eqb_spec h "") as [He | He].
        -- eexists. exists t1, false, w. split; [reflexivity |].
           split; [reflexivity |]. split; [| auto].
           split; [intros _; auto | discriminate].
        -- destruct (Verify_start t1 w) as (t' & w' & Hrun & _).
           exists None, t', true, w'. split; [exact Hrun |].
           split; [reflexivity |]. split; [| congruence].
           split; [congruence |].
           intros (_ & [Hc | [_ Hc]]); congruence.
      * destruct (Verify_start t w) as (t' & w' & Hrun & _).
        exists None, t', true, w'. split; [exact Hrun |].
        split; [reflexivity |]. split; [| congruence].
        split; [congruence |].
        intros (_ & [Hc | [Hc _]]); congruence.
  - destruct (Verify_start t w) as (t' & w' & Hrun & _).
    exists None, t', true, w'. split; [exact Hrun |].
    split; [reflexivity |]. split; [| congruence].
    split; [congruence | intros (Hc & _); congruence].
Qed.

Lemma appends_Now : appends Now.
Proof. intros w. exists [ENow]. reflexivity. Qed.

Lemma appends_verify_pass_tail (fuel : nat) (t : Transaction)
    (probe : confirmation_result) :
  appends
    (match cr_err probe with
     | Some _ =>
         tn <- Now ;;
         if (Z.max (blockHeader.CreationDate (cr_lfb probe)) tn
               <? Int64.add (transaction.CreationDate (txn t))
                    defaultTxnExpirationSeconds)%Z
         then
           quorum <- getTransactionConfirmation getMinShardersVerify (txnHash t) ;;
           match cr_err quorum with
           | Some _ => give_up_or_retry t (blockHeader.CreationDate (cr_lfb quorum)) tn
           | None => confirm fuel t quorum
           end
         else give_up_or_retry t (blockHeader.CreationDate (cr_lfb probe)) tn
     | None => confirm fuel t probe
     end).
Proof.
  destruct (cr_err probe); [| apply appends_confirm].
  apply appends_bind; [apply appends_Now |]. intros tn.
  destruct (_ <? _)%Z; [| apply appends_give_up_or_retry].
  apply appends_bind; [apply appends_getTransactionConfirmation |].
  intros quorum. destruct (cr_err quorum);
    [apply appends_give_up_or_retry | apply appends_confirm].
Qed.

(** X10. On a handle whose submission ended in a status other than
    [StatusUnknown] and [StatusSuccess] and that has no transaction hash
    (a failed broadcast), [Verify] returns no error and starts the loop, and
    the loop's first act is to ask a sharder for the confirmation of the
    empty hash. *)
Theorem Verify_after_failed_submission (fuel : nat) (t : Transaction) (w : world) :
  txnHash t = "" ->
  txnStatus t <> StatusUnknown ->
  txnStatus t <> StatusSuccess ->
  exists t' w',
    Verify t w = Ret (None, t', true) w'
    /\ txnHash t' = ""
    /\ exists rest,
         trace (final_world (verify_pass fuel t' w'))
         = (trace w' ++ EQuery 1 (confirmation_query "") :: rest)%list.
Proof.
  intros Hh Hu Hs.
  destruct (Verify_start t w) as (t' & w' & Hrun & Hhash & _).
  exists t', w'. split; [| split; [congruence |]].
  - unfold Verify. rewrite Hh. cbn [String.eqb andb].
    apply Z.eqb_neq in Hu. apply Z.eqb_neq in Hs. rewrite Hu, Hs. exact Hrun.
  - unfold verify_pass. rewrite Hhash, Hh.
    apply first_event_of_confirmation_query.
    intros probe. pose proof (appends_verify_pass_tail fuel t' probe) as Htail.
    rewrite Hhash, Hh in Htail. exact Htail.
Qed.

(** X13. Once a pass has escalated to the quorum query and that query finds
    no confirmation either, the pass never reports a failure: the expiration
    test it then makes cannot succeed, since the current time is before the
    deadline; it sleeps for [defaultWaitSeconds] and goes back to the
    probe. *)
Theorem escalated_pass_never_fails (fuel : nat) (t : Transaction)
    (w w1 w3 : world) (probe quorum : confirmation_result) :
  getTransactionConfirmation 1 (txnHash t) w = Ret probe w1 ->
  cr_err probe <> None ->
  Z.max (blockHeader.CreationDate (cr_lfb probe)) (common_Now (tick w1))
    < Int64.add (transaction.CreationDate (txn t)) defaultTxnExpirationSeconds ->
  getTransactionConfirmation getMinShardersVerify (txnHash t) (advance ENow w1)
    = Ret quorum w3 ->
  cr_err quorum <> None ->
  verify_pass fuel t w = Ret Again (advance (ESleep defaultWaitSeconds) w3).
Proof.
  intros Hprobe Herr Hguard Hquorum Herr2.
  unfold verify_pass, bind at 1. rewrite Hprobe.
  destruct (cr_err probe) as [e |]; [| congruence].
  unfold bind at 1, Now.
  apply Z.ltb_lt in Hguard as Hguardb. rewrite Hguardb.
  unfold bind at 1. rewrite Hquorum.
  destruct (cr_err quorum) as [e2 |]; [| congruence].
  unfold give_up_or_retry, isTransactionExpired, bind at 1.
  set (lfb2 := blockHeader.CreationDate (cr_lfb quorum)).
  set (tn := common_Now (tick w1)) in *.
  assert (Hmin : (Z.min (if (lfb2 =? 0)%Z then tn else lfb2) tn
                    >? Int64.add (transaction.CreationDate (txn t))
                         defaultTxnExpirationSeconds)%Z = false).
  { rewrite Z.gtb_ltb. apply Z.ltb_ge. lia. }
  rewrite Hmin. reflexivity.
Qed.

(** ** The cached transaction hash *)

(** X14. [GetTransactionHash] changes nothing but the cached hash, and asking
    again gives the same answer and leaves the handle as the first call left
    it. It reads the miners' answer only when the cache is empty and the
    submission succeeded: a cached hash is returned as it is, and a handle
    not in [StatusSuccess] with an empty cache yields the empty hash. *)
Theorem GetTransactionHash_caches (t : Transaction) :
  let (h, t1) := GetTransactionHash t in
  GetTransactionHash t1 = (h, t1)
  /\ h = txnHash t1
  /\ t1 = with_txnHash h t
  /\ (txnHash t <> "" -> h = txnHash t)
  /\ (txnHash t = "" -> txnStatus t <> StatusSuccess -> h = "").
Proof.
  destruct t as [e out hash st err cb vs vo ve].
  unfold GetTransactionHash.
  cbn [txnHash txnStatus txnOut].
  destruct (String.eqb_spec hash "") as [Hh | Hh]; cbn [negb].
  2: { cbn [txnHash]. destruct (String.eqb_spec hash ""); [contradiction |].
       cbn [negb]. repeat split; auto; try contradiction; try congruence. }
  subst hash.
  destruct (Z.eqb_spec st StatusSuccess) as [Hs | Hs]; cbn [negb].
  2: { cbn [txnHash txnStatus String.eqb negb].
       destruct (Z.eqb_spec st StatusSuccess); [contradiction |].
       cbn [negb]. repeat split; auto; try contradiction; try congruence. }
  destruct (json_Unmarshal_entity_hash _) as [[found |] | msg] eqn:Hdec.
  - unfold with_txnHash.
    cbn [txnHash txnStatus txnOut txn txnError txnCb verifyStatus verifyOut verifyError].
    destruct (String.eqb_spec found "") as [Hf | Hf]; cbn [negb].
    + subst found. destruct (Z.eqb_spec st StatusSuccess); [| contradiction].
      cbn [negb]. rewrite Hdec. repeat split; auto; try contradiction; try congruence.
    + repeat split; auto; try contradiction; try congruence.
  - cbn [txnHash txnStatus txnOut String.eqb negb].
    destruct (Z.eqb_spec st StatusSuccess); [| contradiction].
    cbn [negb]. rewrite Hdec. repeat split; auto; try contradiction; try congruence.
  - cbn [txnHash txnStatus txnOut String.eqb negb].
    destruct (Z.eqb_spec st StatusSuccess); [| contradiction].
    cbn [negb]. rewrite Hdec. repeat split; auto; try contradiction; try congruence.
Qed.

(** ** The text that is hashed *)

Lemma append_assoc3 (a b c : string) : (a +:+ b) +:+ c = a +:+ (b +:+ c).
Proof.
  induction a as [| ch a IH]; [reflexivity |].
  change (String ch ((a +:+ b) +:+ c) = String ch (a +:+ (b +:+ c))).
  now rewrite IH.
Qed.

(** X15. The fields are joined without escaping, so [isBlockExtends] cannot
    tell where one text field ends and the next begins: a header whose Merkle
    root ends in ":x" gets the same verdict as the header whose receipt root
    begins with "x:" instead, all else equal. *)
Theorem isBlockExtends_blind_to_field_boundary (prevHash root x receipts : string)
    (block : blockHeader.t) :
  isBlockExtends prevHash (with_roots (root +:+ ":" +:+ x) receipts block)
  = isBlockExtends prevHash (with_roots root (x +:+ ":" +:+ receipts) block).
Proof.
  rewrite !isBlockExtends_eqb. unfold I4_data, with_roots.
  cbn [blockHeader.Hash blockHeader.MinerId blockHeader.CreationDate
       blockHeader.Round blockHeader.RoundRandomSeed
       blockHeader.MerkleTreeRoot blockHeader.ReceiptMerkleTreeRoot colon_join].
  now rewrite (append_assoc3 root (":" +:+ x) (":" +:+ receipts)).
Qed.

(** ** A confirmation without its transaction, seen from the loop *)

(** X16. One answer is enough to bring the verification down: when the
    first answer to the probe is a 200 whose confirmation decodes but carries
    no transaction, the loop of [Verify] panics on its first pass, before any
    callback is made. *)
Theorem verify_loop_panics_on_confirmation_without_txn (fuel : nat)
    (t : Transaction) (w : world) (rsp : util.GetResponse)
    (rest : list util.GetResponse) (objmap : gmap string string)
    (raw : string) (cfm : confirmation.t) :
  sharders_reply (tick w) 1 (confirmation_query (txnHash t)) = rsp :: rest ->
  util.StatusCode rsp = http.StatusOK ->
  json_Unmarshal_object (util.Body rsp) = Ok objmap ->
  objmap !! "confirmation" = Some raw ->
  json_Unmarshal_confirmation raw = Ok cfm ->
  confirmation.Transaction cfm = None ->
  verify_loop (S fuel) t w
  = Panic nil_dereference (advance (EQuery 1 (confirmation_query (txnHash t))) w).
Proof.
  intros Hreply Hcode Hbody Hconf Hcfm Htxn.
  cbn [verify_loop]. unfold verify_pass, getTransactionConfirmation,
    queryFromSharders, bind.
  fold (confirmation_query (txnHash t)). rewrite Hreply.
  change (Z.to_nat 1) with 1%nat. cbn [receive].
  unfold countConfirmation, getBlockHeaderFromTransactionConfirmation.
  rewrite Hcode, Z.eqb_refl, Hbody, Hconf, Hcfm, Htxn.
  reflexivity.
Qed.

(** ** Votes on the confirmation *)

Lemma votes_for_app (txnHash k : string) (l1 l2 : list util.GetResponse) :
  votes_for txnHash k (l1 ++ l2) = votes_for txnHash k l1 + votes_for txnHash k l2.
Proof.
  induction l1 as [| rsp l1 IH]; cbn [votes_for app]; [lia |]. rewrite IH. lia.
Qed.

Lemma votes_for_nonneg (txnHash k : string) (l : list util.GetResponse) :
  0 <= votes_for txnHash k l.
Proof.
  induction l as [| rsp l IH]; cbn [votes_for]; [lia |].
  destruct (valid_header txnHash rsp) as [bH |]; [| lia].
  destruct (String.eqb (blockHeader.Hash bH) k); lia.
Qed.

(** What one pass does to the loop's variables, by the vote of the answer. *)
Lemma countConfirmation_vote (txnHash : string) (st st1 : confirmation_votes)
    (rsp : util.GetResponse) :
  countConfirmation txnHash st rsp = Returned st1 ->
  match valid_header txnHash rsp with
  | Some bH =>
      let n := default 0 (txnConfirmations st !! blockHeader.Hash bH) + 1 in
      txnConfirmations st1 = <[blockHeader.Hash bH := n]> (txnConfirmations st)
      /\ (n > maxConfirmation st ->
            maxConfirmation st1 = n /\ blockHdr st1 = Some bH)
      /\ (n <= maxConfirmation st ->
            maxConfirmation st1 = maxConfirmation st /\ blockHdr st1 = blockHdr st)
  | None =>
      txnConfirmations st1 = txnConfirmations st
      /\ maxConfirmation st1 = maxConfirmation st
      /\ blockHdr st1 = blockHdr st
  end.
Proof.
  unfold countConfirmation, valid_header.
  destruct (util.StatusCode rsp =? http.StatusOK)%Z;
    [| intros Heq; inversion Heq; auto].
  destruct (json_Unmarshal_object (util.Body rsp)) as [cfmLfb | e];
    [| intros Heq; inversion Heq; auto].
  destruct (getBlockHeaderFromTransactionConfirmation txnHash cfmLfb)
    as [[bH | e] | msg]; [| | discriminate].
  - cbv zeta.
    destruct (Z.gtb_spec (default 0 (txnConfirmations st !! blockHeader.Hash bH) + 1)
                (maxConfirmation st)) as [Hgt | Hle];
      intros Heq; inversion Heq; cbn; repeat split; auto; lia.
  - destruct (cfmLfb !! "latest_finalized_block");
      intros Heq; inversion Heq; auto.
Qed.

Lemma votes_inv_step (txnHash : string) (seen : list util.GetResponse)
    (st st1 : confirmation_votes) (rsp : util.GetResponse) :
  votes_inv txnHash seen st ->
  countConfirmation txnHash st rsp = Returned st1 ->
  votes_inv txnHash (seen ++ [rsp]) st1.
Proof.
  intros (Hcount & Hmax & Hhdr) Hstep.
  apply countConfirmation_vote in Hstep.
  unfold votes_inv.
  assert (Hone : forall k, votes_for txnHash k (seen ++ [rsp])
                 = votes_for txnHash k seen
                   + match valid_header txnHash rsp with
                     | Some bH => if String.eqb (blockHeader.Hash bH) k then 1 else 0
                     | None => 0
                     end).
  { intros k. rewrite votes_for_app. cbn [votes_for]. lia. }
  destruct (valid_header txnHash rsp) as [bH |] eqn:Hvalid.
  - cbv zeta in Hstep. destruct Hstep as (Hvotes & Hnew & Hold).
    set (n := default 0 (txnConfirmations st !! blockHeader.Hash bH) + 1) in *.
    assert (Hn : n = votes_for txnHash (blockHeader.Hash bH) seen + 1)
      by (subst n; now rewrite Hcount).
    pose proof (votes_for_nonneg txnHash (blockHeader.Hash bH) seen) as Hnn.
    assert (Hcount1 : forall k, default 0 (txnConfirmations st1 !! k)
                              = votes_for txnHash k (seen ++ [rsp])).
    { intros k. rewrite Hone, Hvotes.
      destruct (String.eqb_spec (blockHeader.Hash bH) k) as [<- | Hne].
      - rewrite lookup_insert_eq. cbn. lia.
      - rewrite lookup_insert_ne by exact Hne. rewrite Hcount. lia. }
    split; [exact Hcount1 |].
    destruct (Z_gt_le_dec n (maxConfirmation st)) as [Hgt | Hle].
    + destruct (Hnew Hgt) as [Hm Hb]. rewrite Hm, Hb.
      split.
      * intros k. rewrite Hone.
        destruct (String.eqb_spec (blockHeader.Hash bH) k) as [<- | Hne];
          [lia | specialize (Hmax k); lia].
      * rewrite Hone, String.eqb_refl. split; [lia |]. split.
        -- specialize (Hmax (blockHeader.Hash bH)). lia.
        -- exists rsp. split; [apply in_or_app; right; now left | exact Hvalid].
    + destruct (Hold Hle) as [Hm Hb]. rewrite Hm, Hb.
      destruct (blockHdr st) as [b |].
      * destruct Hhdr as (Hbcount & Hpos & (r0 & Hin & Hr0)).
        assert (Hdiff : blockHeader.Hash bH <> blockHeader.Hash b).
        { intros Heq. rewrite Heq in Hn. lia. }
        split.
        -- intros k. rewrite Hone.
           destruct (String.eqb_spec (blockHeader.Hash bH) k) as [<- | Hne];
             [lia | specialize (Hmax k); lia].
        -- rewrite Hone. apply String.eqb_neq in Hdiff. rewrite Hdiff.
           split; [lia |]. split; [exact Hpos |].
           exists r0. split; [apply in_or_app; now left | exact Hr0].
      * destruct Hhdr as [Hzero _].
        specialize (Hmax (blockHeader.Hash bH)).
        lia.
  - destruct Hstep as (Hvotes & Hm & Hb). rewrite Hvotes, Hm, Hb.
    split; [intros k; rewrite Hone, Hcount; lia |].
    split; [intros k; rewrite Hone; specialize (Hmax k); lia |].
    destruct (blockHdr st) as [b |].
    + destruct Hhdr as (Hbcount & Hpos & (r0 & Hin & Hr0)).
      rewrite Hone. split; [lia |]. split; [exact Hpos |].
      exists r0. split; [apply in_or_app; now left | exact Hr0].
    + destruct Hhdr as [Hzero Hnone]. split; [exact Hzero |].
      intros r0 Hin. apply in_app_or in Hin as [Hin | [<- | []]]; auto.
Qed.

Lemma votes_inv_fold (txnHash : string) (l : list util.GetResponse) :
  forall (seen : list util.GetResponse) (st st' : confirmation_votes),
    votes_inv txnHash seen st ->
    fold_replies (countConfirmation txnHash) st l = Returned st' ->
    votes_inv txnHash (seen ++ l) st'.
Proof.
  induction l as [| rsp l IH]; intros seen st st' Hinv Hfold; cbn [fold_replies] in Hfold.
  - inversion Hfold; subst st'. now rewrite app_nil_r.
  - destruct (countConfirmation txnHash st rsp) as [s1 | msg] eqn:Hstep;
      [| discriminate].
    replace (seen ++ rsp :: l)%list with ((seen ++ [rsp]) ++ l)%list
      by (now rewrite <- app_assoc).
    eapply IH; [| exact Hfold]. eapply votes_inv_step; eauto.
Qed.

(** What a call of [getTransactionConfirmation] that returns has done. *)
Lemma getTransactionConfirmation_Ret (numSharders : Z) (txnHash : string)
    (r : confirmation_result) (w w' : world) :
  getTransactionConfirmation numSharders txnHash w = Ret r w' ->
  exists st,
    fold_replies (countConfirmation txnHash)
      {| maxConfirmation := 0; txnConfirmations := ∅; blockHdr := None;
         lfb := blockHeader.zero; confirmation_map := None |}
      (take (Z.to_nat numSharders)
         (sharders_reply (tick w) numSharders (confirmation_query txnHash)))
    = Returned st
    /\ w' = advance (EQuery numSharders (confirmation_query txnHash)) w
    /\ cr_block r = (if (maxConfirmation st =? 0)%Z then None else blockHdr st)
    /\ cr_confirmation r = confirmation_map st
    /\ cr_err r = (if (maxConfirmation st =? 0)%Z
                   then Some "transaction not found" else None).
Proof.
  unfold getTransactionConfirmation, bind at 1 2, queryFromSharders.
  fold (confirmation_query txnHash). rewrite receive_eq.
  destruct (fold_replies _ _ _) as [st | msg]; [| discriminate].
  destruct (_ <=? _)%nat; [| discriminate].
  intros Hret. exists st. split; [reflexivity |].
  destruct (maxConfirmation st =? 0)%Z; unfold ret in Hret;
    inversion Hret; subst; cbn; auto.
Qed.

Lemma votes_inv_result (numSharders : Z) (txnHash : string)
    (r : confirmation_result) (w w' : world) :
  getTransactionConfirmation numSharders txnHash w = Ret r w' ->
  exists st,
    votes_inv txnHash
      (take (Z.to_nat numSharders)
         (sharders_reply (tick w) numSharders (confirmation_query txnHash))) st
    /\ cr_block r = (if (maxConfirmation st =? 0)%Z then None else blockHdr st)
    /\ cr_err r = (if (maxConfirmation st =? 0)%Z
                   then Some "transaction not found" else None).
Proof.
  intros Hrun.
  apply getTransactionConfirmation_Ret in Hrun as (st & Hfold & _ & Hb & _ & He).
  exists st. split; [| split; assumption].
  apply (votes_inv_fold txnHash _ [] _ st) in Hfold; [exact Hfold |].
  unfold votes_inv. cbn. repeat split; auto; try lia; try tauto.
Qed.

(** X2. The header [getTransactionConfirmation] returns is the header of one
    of the answers it took, and no block hash got more votes among those
    answers than its hash. *)
Theorem confirmation_winner_has_most_votes (numSharders : Z) (txnHash : string)
    (r : confirmation_result) (b : blockHeader.t) (w w' : world) :
  getTransactionConfirmation numSharders txnHash w = Ret r w' ->
  cr_block r = Some b ->
  let answers :=
    take (Z.to_nat numSharders)
      (sharders_reply (tick w) numSharders (confirmation_query txnHash)) in
  (exists rsp, In rsp answers /\ valid_header txnHash rsp = Some b)
  /\ 0 < votes_for txnHash (blockHeader.Hash b) answers
  /\ (forall hash,
        votes_for txnHash hash answers
        <= votes_for txnHash (blockHeader.Hash b) answers).
Proof.
  intros Hrun Hblock answers.
  destruct (votes_inv_result _ _ _ _ _ Hrun) as (st & (Hcount & Hmax & Hhdr) & Hb & _).
  fold answers in Hcount, Hmax, Hhdr.
  rewrite Hblock in Hb.
  destruct (maxConfirmation st =? 0)%Z; [discriminate |].
  rewrite <- Hb in Hhdr. destruct Hhdr as (Hbcount & Hpos & Hin).
  split; [exact Hin |]. rewrite Hbcount. split; [exact Hpos | exact Hmax].
Qed.

(** X3. [getTransactionConfirmation] reports "transaction not found", with
    no header, exactly when none of the answers it took carries a valid
    confirmation of the transaction; otherwise it returns a header and no
    error. *)
Theorem confirmation_found_iff_valid_answer (numSharders : Z) (txnHash : string)
    (r : confirmation_result) (w w' : world) :
  getTransactionConfirmation numSharders txnHash w = Ret r w' ->
  let answers :=
    take (Z.to_nat numSharders)
      (sharders_reply (tick w) numSharders (confirmation_query txnHash)) in
  ((exists rsp, In rsp answers /\ valid_header txnHash rsp <> None)
     -> cr_err r = None /\ cr_block r <> None)
  /\ ((forall rsp, In rsp answers -> valid_header txnHash rsp = None)
     -> cr_err r = Some "transaction not found" /\ cr_block r = None).
Proof.
  intros Hrun answers.
  destruct (votes_inv_result _ _ _ _ _ Hrun) as (st & (Hcount & Hmax & Hhdr) & Hb & He).
  fold answers in Hcount, Hmax, Hhdr.
  rewrite Hb, He.
  destruct (blockHdr st) as [b |].
  - destruct Hhdr as (_ & Hpos & (r0 & Hin & Hr0)).
    destruct (Z.eqb_spec (maxConfirmation st) 0) as [Hz | Hnz]; [lia |].
    split; [intros _; split; [reflexivity | discriminate] |].
    intros Hnone. rewrite (Hnone r0 Hin) in Hr0. discriminate.
  - destruct Hhdr as [Hzero Hnone]. rewrite Hzero. cbn.
    split; [| intros _; split; reflexivity].
    intros (r0 & Hin & Hr0). rewrite (Hnone r0 Hin) in Hr0. contradiction.
Qed.

(** ** Inclusion is checked before success *)

(** A header read from a confirmation passed the four checks. *)
Lemma getBlockHeader_Ok_checks (txnHash : string) (cfmBlock : gmap string string)
    (bH : blockHeader.t) :
  getBlockHeaderFromTransactionConfirmation txnHash cfmBlock = Returned (Ok bH) ->
  exists raw cfm cfmTxn,
    cfmBlock !! "confirmation" = Some raw
    /\ json_Unmarshal_confirmation raw = Ok cfm
    /\ confirmation.Transaction cfm = Some cfmTxn
    /\ confirmation_checks txnHash cfm cfmTxn
    /\ bH = confirmation_header cfm.
Proof.
  unfold getBlockHeaderFromTransactionConfirmation, confirmation_checks.
  destruct (cfmBlock !! "confirmation") as [raw |]; [| discriminate].
  destruct (json_Unmarshal_confirmation raw) as [cfm | err] eqn:Hcfm; [| discriminate].
  destruct (confirmation.Transaction cfm) as [cfmTxn |] eqn:Htxn; [| discriminate].
  destruct (String.eqb_spec txnHash (transaction.Hash cfmTxn)) as [Hh | Hh];
    cbn [negb]; [| discriminate].
  destruct (VerifyMerklePath (transaction.Hash cfmTxn) _ _) eqn:Hm;
    cbn [negb]; [| discriminate].
  destruct (VerifyMerklePath (receipt_GetHash cfmTxn) _ _) eqn:Hr;
    cbn [negb]; [| discriminate].
  destruct (isBlockExtends _ _) eqn:He; [| discriminate].
  intros Heq. inversion Heq. exists raw, cfm, cfmTxn.
  repeat split; auto.
  rewrite isBlockExtends_eqb in He. apply String.eqb_eq in He. exact He.
Qed.

(** The header and the answer that [getTransactionConfirmation] returns
    belong together: the header was read from that very answer. *)
Lemma confirmation_result_paired (numSharders : Z) (txnHash : string)
    (r : confirmation_result) (b : blockHeader.t) (w w' : world) :
  getTransactionConfirmation numSharders txnHash w = Ret r w' ->
  cr_block r = Some b ->
  exists cfmLfb,
    cr_confirmation r = Some cfmLfb
    /\ getBlockHeaderFromTransactionConfirmation txnHash cfmLfb = Returned (Ok b).
Proof.
  intros Hrun Hblock. unfold getTransactionConfirmation in Hrun.
  apply bind_Ret in Hrun as (replies & w1 & _ & Hrun).
  apply bind_Ret in Hrun as (st & w2 & Hrecv & Hrun).
  assert (Hst : forall b0, blockHdr st = Some b0 ->
            exists cfmLfb, confirmation_map st = Some cfmLfb
              /\ getBlockHeaderFromTransactionConfirmation txnHash cfmLfb
                 = Returned (Ok b0)).
  { eapply (receive_invariant
              (fun s => forall b0, blockHdr s = Some b0 ->
                 exists cfmLfb, confirmation_map s = Some cfmLfb
                   /\ getBlockHeaderFromTransactionConfirmation txnHash cfmLfb
                      = Returned (Ok b0)));
      [| | exact Hrecv].
    - intros s0 rsp s1 Hs0. unfold countConfirmation.
      assert (Hsame : Returned s0 = Returned s1 ->
                forall b0, blockHdr s1 = Some b0 ->
                  exists cfmLfb, confirmation_map s1 = Some cfmLfb
                    /\ getBlockHeaderFromTransactionConfirmation txnHash cfmLfb
                       = Returned (Ok b0)).
      { intros Heq. inversion Heq; subst s1. exact Hs0. }
      destruct (util.StatusCode rsp =? http.StatusOK)%Z; [| exact Hsame].
      destruct (json_Unmarshal_object (util.Body rsp)) as [cfmLfb | err];
        [| exact Hsame].
      destruct (getBlockHeaderFromTransactionConfirmation txnHash cfmLfb)
        as [[bH | err] | msg] eqn:Hhdr; [| | discriminate].
      + destruct (_ >? _)%Z; intros Heq; inversion Heq; subst s1;
          cbn [blockHdr confirmation_map]; [| exact Hs0].
        intros b0 Hb0. inversion Hb0; subst b0. eauto.
      + destruct (cfmLfb !! "latest_finalized_block");
          intros Heq; inversion Heq; subst s1; exact Hs0.
    - cbn. discriminate. }
  destruct (maxConfirmation st =? 0)%Z; unfold ret in Hrun;
    inversion Hrun; subst r; cbn [cr_block cr_confirmation] in *;
    [discriminate | eauto].
Qed.

Lemma confirm_success_output (fuel : nat) (t t' : Transaction)
    (r : confirmation_result) (w w' : world) :
  StatusSuccess <> StatusError ->
  confirm fuel t r w = Ret (Finished t') w' ->
  verifyStatus t' = StatusSuccess ->
  exists confirmBlock,
    cr_block r = Some confirmBlock
    /\ json_Marshal_object (cr_confirmation r) = Ok (verifyOut t').
Proof.
  intros Hdistinct Hrun Hstatus. unfold confirm in Hrun.
  destruct (cr_block r) as [confirmBlock |]; [| discriminate].
  apply bind_Ret in Hrun as (valid & w1 & _ & Hrun).
  destruct valid; [| discriminate].
  exists confirmBlock. split; [reflexivity |].
  destruct (json_Marshal_object (cr_confirmation r)) as [output | err].
  - apply bind_Ret in Hrun as (t1 & w2 & Hc & Hret).
    apply completeVerify_Ret in Hc. unfold ret in Hret.
    inversion Hret; subst. reflexivity.
  - apply bind_Ret in Hrun as (t1 & w2 & Hc & Hret).
    apply completeVerify_Ret in Hc. unfold ret in Hret.
    inversion Hret; subst. cbn in Hstatus. congruence.
Qed.

(** X1. The loop of [Verify] ends with [StatusSuccess] only on an answer
    whose confirmation carries the transaction and passed the four checks for
    the handle's hash: same transaction hash, both Merkle paths verified, and
    the block hash recomputed from the previous block hash; and the verify
    output is the encoding of that very answer. *)
Theorem verify_success_only_after_inclusion_checked (fuel : nat)
    (t t' : Transaction) (w w' : world) :
  StatusSuccess <> StatusError ->
  verify_loop fuel t w = Ret t' w' ->
  verifyStatus t' = StatusSuccess ->
  exists (cfmLfb : gmap string string) (raw : string) (cfm : confirmation.t)
         (cfmTxn : transaction.Transaction),
    json_Marshal_object (Some cfmLfb) = Ok (verifyOut t')
    /\ cfmLfb !! "confirmation" = Some raw
    /\ json_Unmarshal_confirmation raw = Ok cfm
    /\ confirmation.Transaction cfm = Some cfmTxn
    /\ confirmation_checks (txnHash t) cfm cfmTxn.
Proof.
  intros Hdistinct.
  revert w. induction fuel as [| fuel IH]; intros w Hrun Hstatus;
    cbn [verify_loop] in Hrun; [discriminate |].
  apply bind_Ret in Hrun as (p & w1 & Hpass & Hrun).
  destruct p as [| t1]; [eapply IH; eauto |].
  unfold ret in Hrun. inversion Hrun; subst t1 w1. clear Hrun.
  destruct (verify_pass_success fuel t t' w w' Hdistinct Hpass Hstatus)
    as (numSharders & r & wq & wc & Hquery & Hconfirm).
  destruct (confirm_success_output fuel t t' r wc w' Hdistinct Hconfirm Hstatus)
    as (confirmBlock & Hblock & Hout).
  destruct (confirmation_result_paired _ _ _ _ _ _ Hquery Hblock)
    as (cfmLfb & Hmap & Hhdr).
  destruct (getBlockHeader_Ok_checks _ _ _ Hhdr)
    as (raw & cfm & cfmTxn & Hraw & Hcfm & Htxn & Hchecks & _).
  exists cfmLfb, raw, cfm, cfmTxn. rewrite <- Hmap. auto.
Qed.

(** ** Votes on the header of a round *)

Lemma countHeader_vote (st st1 : round_votes) (rsp : util.GetResponse) :
  countHeader st rsp = Returned st1 ->
  match round_vote rsp with
  | Some h =>
      let n := default 0 (roundConsensus st !! h) + 1 in
      roundConsensus st1 = <[h := n]> (roundConsensus st)
      /\ maxConsensus st1 = Z.max n (maxConsensus st)
  | None => roundConsensus st1 = roundConsensus st
            /\ maxConsensus st1 = maxConsensus st
  end.
Proof.
  unfold countHeader, round_vote.
  destruct (util.StatusCode rsp =? http.StatusOK)%Z;
    [| intros Heq; inversion Heq; auto].
  destruct (json_Unmarshal_object (util.Body rsp)) as [objmap | e];
    [| intros Heq; inversion Heq; auto].
  destruct (objmap !! "header") as [header |];
    [| intros Heq; inversion Heq; auto].
  destruct (json_Unmarshal_object_into header objmap) as [objmap' | e];
    [| intros Heq; inversion Heq; auto].
  destruct (objmap' !! "hash") as [hash |];
    cbn [fmap option_fmap option_map]; [| intros Heq; inversion Heq; auto].
  cbv zeta.
  destruct (Z.gtb_spec (default 0 (roundConsensus st !! encryption_FastHash hash) + 1)
              (maxConsensus st)) as [Hgt | Hle];
    intros Heq; inversion Heq; cbn; split; auto; lia.
Qed.

Lemma round_inv_fold (l : list util.GetResponse) :
  forall (seen : list util.GetResponse) (st st' : round_votes),
    round_inv seen st ->
    fold_replies countHeader st l = Returned st' ->
    round_inv (seen ++ l) st'.
Proof.
  induction l as [| rsp l IH]; intros seen st st' Hinv Hfold; cbn [fold_replies] in Hfold.
  - inversion Hfold; subst st'. now rewrite app_nil_r.
  - destruct (countHeader st rsp) as [s1 | msg] eqn:Hstep; [| discriminate].
    replace (seen ++ rsp :: l)%list with ((seen ++ [rsp]) ++ l)%list
      by (now rewrite <- app_assoc).
    eapply IH; [| exact Hfold].
    destruct Hinv as (Hnn & Hmax & Hzero).
    apply countHeader_vote in Hstep. unfold round_inv.
    destruct (round_vote rsp) as [h |] eqn:Hvote.
    + cbv zeta in Hstep. destruct Hstep as [Hvotes Hm].
      pose proof (Hnn h) as Hh.
      split; [| split].
      * intros k. rewrite Hvotes.
        destruct (decide (h = k)) as [<- | Hne];
          [rewrite lookup_insert_eq; cbn; lia
          | rewrite lookup_insert_ne by exact Hne; apply Hnn].
      * lia.
      * split; [lia |].
        intros Hnone. specialize (Hnone rsp).
        rewrite Hvote in Hnone. discriminate Hnone.
        apply in_or_app. right. now left.
    + destruct Hstep as [Hvotes Hm]. rewrite Hvotes, Hm.
      split; [exact Hnn |]. split; [exact Hmax |].
      rewrite Hzero. split.
      * intros Hnone r0 Hin. apply in_app_or in Hin as [Hin | [<- | []]]; auto.
      * intros Hnone r0 Hin. apply Hnone. apply in_or_app. now left.
Qed.

(** X4. [getBlockInfoByRound] fails, with "round info not found.", exactly
    when none of the answers it took is a 200 whose body decodes to a map
    with a "header" entry, whose header decodes into that same map, and
    whose map then has a "hash" entry; otherwise it returns a header. *)
Theorem round_info_found_iff_vote (numSharders round : Z) (content : string)
    (res : or_error blockHeader.t) (w w' : world) :
  getBlockInfoByRound numSharders round content w = Ret res w' ->
  let answers :=
    take (Z.to_nat numSharders)
      (sharders_reply (tick w) numSharders (round_query round content)) in
  ((forall rsp, In rsp answers -> round_vote rsp = None)
     -> res = Err "round info not found.")
  /\ ((exists rsp, In rsp answers /\ round_vote rsp <> None)
     -> exists header, res = Ok header)
  /\ w' = advance (EQuery numSharders (round_query round content)) w.
Proof.
  unfold getBlockInfoByRound, bind at 1 2, queryFromSharders.
  fold (round_query round content). rewrite receive_eq.
  destruct (fold_replies _ _ _) as [st | msg] eqn:Hfold; [| discriminate].
  destruct (_ <=? _)%nat; [| discriminate].
  intros Hret.
  apply (round_inv_fold _ [] _ st) in Hfold.
  2: { unfold round_inv. cbn. split; [intros k; now rewrite lookup_empty |].
       split; [lia |]. split; [tauto | reflexivity]. }
  cbn [app] in Hfold.
  destruct Hfold as (_ & _ & [Hquiet Hzero]).
  destruct (Z.eqb_spec (maxConsensus st) 0) as [Hz | Hnz];
    unfold ret in Hret; inversion Hret; subst.
  - split; [intros _; reflexivity |]. split; [| reflexivity].
    intros (r0 & Hin & Hr0). now rewrite (Hquiet Hz r0 Hin) in Hr0.
  - split; [| split; [eauto | reflexivity]].
    intros Hnone. apply Hzero in Hnone. contradiction.
Qed.

(** ** The verdicts of the chain walk *)

Ltac int64_bounds :=
  unfold Int64.in_range, Int64.min_int, Int64.max_int in *;
  change (2 ^ 63) with 9223372036854775808 in *.

(** Away from the end of the 64-bit range a pass never returns [false]. *)
Lemma extend_not_false (confirmBlock nextBlock : blockHeader.t)
    (st st' : chain_walk) (b : bool) :
  Int64.in_range (blockHeader.Round confirmBlock) ->
  Int64.in_range getMinRequiredChainLength ->
  blockHeader.Round confirmBlock + Z.max 2 getMinRequiredChainLength <= Int64.max_int ->
  (exists accepted : nat, walk_inv confirmBlock accepted st) ->
  extend (blockHeader.Round confirmBlock) st nextBlock = (st', Some b) ->
  b = true.
Proof.
  intros HcR Hlen Hroom (accepted & Hround & Hk) Hext.
  int64_bounds. cbv zeta in *.
  set (cR := blockHeader.Round confirmBlock) in *.
  set (n := Z.of_nat accepted) in *.
  assert (Hn : 0 <= n) by (subst n; lia).
  destruct (wrap_spec (cR + (1 + n))) as (q0 & Hq0 & Hr0).
  rewrite <- Hround in Hq0, Hr0.
  unfold extend in Hext.
  destruct (isBlockExtends (currentBlockHash st) nextBlock).
  - cbn [round] in Hext. unfold Int64.add, Int64.sub in Hext.
    destruct (wrap_spec (round st + 1)) as (q1 & Hq1 & Hr1).
    set (r1 := Int64.wrap (round st + 1)) in *.
    destruct ((r1 >? cR) && (Int64.wrap (r1 - cR) <? getMinRequiredChainLength))%Z;
      [discriminate |].
    destruct (Z.ltb_spec r1 cR) as [Hlt | Hge];
      inversion Hext; [exfalso; lia | reflexivity].
  - destruct ((round st >? cR)
              && (Int64.sub (round st) cR <? getMinRequiredChainLength))%Z;
      [discriminate |].
    destruct (Z.ltb_spec (round st) cR) as [Hlt | Hge];
      inversion Hext; [exfalso; lia | reflexivity].
Qed.

Lemma validateChain_loop_not_false (confirmBlock : blockHeader.t) (fuel : nat) :
  Int64.in_range (blockHeader.Round confirmBlock) ->
  Int64.in_range getMinRequiredChainLength ->
  blockHeader.Round confirmBlock + Z.max 2 getMinRequiredChainLength <= Int64.max_int ->
  forall (st st' : chain_walk) (b : bool) (w w' : world),
    (exists accepted : nat, walk_inv confirmBlock accepted st) ->
    validateChain_loop fuel (blockHeader.Round confirmBlock) st w = Ret (b, st') w' ->
    b = true.
Proof.
  intros HcR Hlen Hroom.
  induction fuel as [| fuel IH]; intros st st' b w w' Hinv Hrun;
    cbn [validateChain_loop] in Hrun; [discriminate |].
  assert (Hfinish : forall nextBlock w1,
            match extend (blockHeader.Round confirmBlock) st nextBlock with
            | (st1, None) =>
                validateChain_loop fuel (blockHeader.Round confirmBlock) st1
            | (st1, Some b0) => ret (b0, st1)
            end w1 = Ret (b, st') w' -> b = true).
  { intros nextBlock w1 Hfin.
    destruct (extend (blockHeader.Round confirmBlock) st nextBlock)
      as [st1 res] eqn:Hext.
    destruct res as [b0 |].
    - unfold ret in Hfin. inversion Hfin; subst b0 st1 w1.
      eapply extend_not_false; eauto.
    - eapply IH; [| exact Hfin].
      destruct Hinv as [accepted Hinv]. eexists.
      exact (extend_keeps_walk confirmBlock nextBlock accepted st st1 None
               HcR Hlen Hinv Hext). }
  apply bind_Ret in Hrun as (first & w1 & _ & Hrun).
  destruct first as [nextBlock | err]; [eapply Hfinish; eauto |].
  apply bind_Ret in Hrun as ([] & w2 & _ & Hrun).
  apply bind_Ret in Hrun as (second & w3 & _ & Hrun).
  destruct second as [nextBlock | err']; [eapply Hfinish; eauto |].
  apply bind_Ret in Hrun as ([] & w4 & _ & Hrun).
  eapply IH; eauto.
Qed.

(** X5. When the confirmation round leaves room for the walk below the
    largest 64-bit integer, [validateChain] never returns [false]: it
    returns [true] or keeps asking. The [return false] of its loop is
    reached only when the round counter wraps around. *)
Theorem validateChain_never_false_without_overflow (fuel : nat)
    (confirmBlock : blockHeader.t) (b : bool) (w w' : world) :
  Int64.in_range (blockHeader.Round confirmBlock) ->
  Int64.in_range getMinRequiredChainLength ->
  blockHeader.Round confirmBlock + Z.max 2 getMinRequiredChainLength <= Int64.max_int ->
  validateChain fuel confirmBlock w = Ret b w' ->
  b = true.
Proof.
  intros HcR Hlen Hroom Hrun. unfold validateChain in Hrun.
  apply bind_Ret in Hrun as ([b0 st'] & w1 & Hloop & Hret).
  unfold ret in Hret. inversion Hret; subst b w1. cbn [fst].
  eapply validateChain_loop_not_false; eauto.
  exists 0%nat. apply walk_inv_start.
Qed.

Lemma validateChain_loop_at_last_round (confirmBlock : blockHeader.t) (fuel : nat) :
  blockHeader.Round confirmBlock = Int64.max_int ->
  forall (st' : chain_walk) (b : bool) (w w' : world),
    validateChain_loop fuel (blockHeader.Round confirmBlock)
      (chain_start confirmBlock) w = Ret (b, st') w' ->
    b = false.
Proof.
  intros Hlast.
  induction fuel as [| fuel IH]; intros st' b w w' Hrun;
    cbn [validateChain_loop] in Hrun; [discriminate |].
  assert (Hfinish : forall nextBlock w1,
            match extend (blockHeader.Round confirmBlock)
                    (chain_start confirmBlock) nextBlock with
            | (st1, None) =>
                validateChain_loop fuel (blockHeader.Round confirmBlock) st1
            | (st1, Some b0) => ret (b0, st1)
            end w1 = Ret (b, st') w' -> b = false).
  { intros nextBlock w1. unfold extend, chain_start. rewrite Hlast.
    cbn [round currentBlockHash].
    destruct (isBlockExtends _ _); vm_compute; intros Heq; now inversion Heq. }
  apply bind_Ret in Hrun as (first & w1 & _ & Hrun).
  destruct first as [nextBlock | err]; [eapply Hfinish; eauto |].
  apply bind_Ret in Hrun as ([] & w2 & _ & Hrun).
  apply bind_Ret in Hrun as (second & w3 & _ & Hrun).
  destruct second as [nextBlock | err']; [eapply Hfinish; eauto |].
  apply bind_Ret in Hrun as ([] & w4 & _ & Hrun).
  eapply IH; eauto.
Qed.

(** X6. For a confirmed block at round 2^63 - 1 the round counter starts
    wrapped around, below the confirmation round: [validateChain] then never
    returns [true]; whenever it returns it returns [false], whatever the
    headers it received. *)
Theorem validateChain_false_at_last_round (fuel : nat)
    (confirmBlock : blockHeader.t) (b : bool) (w w' : world) :
  blockHeader.Round confirmBlock = Int64.max_int ->
  validateChain fuel confirmBlock w = Ret b w' ->
  b = false.
Proof.
  intros Hlast Hrun. unfold validateChain in Hrun.
  apply bind_Ret in Hrun as ([b0 st'] & w1 & Hloop & Hret).
  unfold ret in Hret. inversion Hret; subst b w1. cbn [fst].
  eapply validateChain_loop_at_last_round; eauto.
Qed.


(** The walk goes through when every round it needs is served. *)
Lemma walk_served (confirmBlock : blockHeader.t) (hdr : Z -> blockHeader.t)
    (tip : Z -> string) :
  Int64.in_range (blockHeader.Round confirmBlock) ->
  Int64.in_range getMinRequiredChainLength ->
  blockHeader.Round confirmBlock + getMinRequiredChainLength <= Int64.max_int ->
  (forall r w0,
      blockHeader.Round confirmBlock < r
        < blockHeader.Round confirmBlock + getMinRequiredChainLength ->
      exists w1, getBlockInfoByRound 1 r "header" w0 = Ret (Ok (hdr r)) w1) ->
  (forall r,
      blockHeader.Round confirmBlock < r
        < blockHeader.Round confirmBlock + getMinRequiredChainLength ->
      isBlockExtends (tip (r - 1)) (hdr r) = true
      /\ tip r = blockHeader.Hash (hdr r)) ->
  forall (fuel : nat) (k : Z) (st : chain_walk) (w : world),
    1 <= k < getMinRequiredChainLength ->
    round st = blockHeader.Round confirmBlock + k ->
    currentBlockHash st = tip (blockHeader.Round confirmBlock + k - 1) ->
    (Z.to_nat (getMinRequiredChainLength - k) <= fuel)%nat ->
    exists st' w',
      validateChain_loop fuel (blockHeader.Round confirmBlock) st w
      = Ret (true, st') w'.
Proof.
  intros HcR Hlen Hroom Hserved Htip.
  set (cR := blockHeader.Round confirmBlock) in *.
  induction fuel as [| fuel IH]; intros k st w Hk Hround Hcur Hfuel; [lia |].
  cbn [validateChain_loop]. unfold bind at 1. rewrite Hround.
  destruct (Hserved (cR + k) w ltac:(lia)) as [w1 Hfetch]. rewrite Hfetch.
  destruct (Htip (cR + k) ltac:(lia)) as [Hext Hhash].
  unfold extend. rewrite Hcur, Hext. cbn [round].
  rewrite Hround.
  rewrite (add_exact (cR + k) 1) by (int64_bounds; lia).
  rewrite (sub_exact' (cR + k + 1) cR) by (int64_bounds; lia).
  destruct (Z.gtb_spec (cR + k + 1) cR) as [_ | Hc]; [| lia].
  cbn [andb].
  destruct (Z.ltb_spec (cR + k + 1 - cR) getMinRequiredChainLength) as [Hmore | Hdone].
  - apply (IH (k + 1)); cbn [round currentBlockHash]; try lia.
    replace (cR + (k + 1) - 1) with (cR + k) by lia. now rewrite Hhash.
  - destruct (Z.ltb_spec (cR + k + 1) cR) as [Hc | _]; [lia |].
    eexists. eexists. reflexivity.
Qed.

(** X8. When a sharder serves, for each of the rounds confirm_round + 1 up
    to confirm_round + required length - 1, a header that extends the one
    before (the confirmed block for the first), [validateChain] returns
    [true], given as many passes of its loop as there are such rounds. *)
Theorem validateChain_succeeds_when_served (fuel : nat)
    (confirmBlock : blockHeader.t) (hdr : Z -> blockHeader.t) (w : world) :
  Int64.in_range (blockHeader.Round confirmBlock) ->
  Int64.in_range getMinRequiredChainLength ->
  2 <= getMinRequiredChainLength ->
  blockHeader.Round confirmBlock + getMinRequiredChainLength <= Int64.max_int ->
  (forall r w0,
      blockHeader.Round confirmBlock < r
        < blockHeader.Round confirmBlock + getMinRequiredChainLength ->
      exists w1, getBlockInfoByRound 1 r "header" w0 = Ret (Ok (hdr r)) w1) ->
  isBlockExtends (blockHeader.Hash confirmBlock)
    (hdr (blockHeader.Round confirmBlock + 1)) = true ->
  (forall r,
      blockHeader.Round confirmBlock + 1 < r
        < blockHeader.Round confirmBlock + getMinRequiredChainLength ->
      isBlockExtends (blockHeader.Hash (hdr (r - 1))) (hdr r) = true) ->
  (Z.to_nat (getMinRequiredChainLength - 1) <= fuel)%nat ->
  exists w', validateChain fuel confirmBlock w = Ret true w'.
Proof.
  intros HcR Hrange Hlen Hroom Hserved Hfirst Hnext Hfuel.
  set (cR := blockHeader.Round confirmBlock) in *.
  set (tip := fun r => if (r =? cR)%Z then blockHeader.Hash confirmBlock
                       else blockHeader.Hash (hdr r)).
  destruct (walk_served confirmBlock hdr tip HcR Hrange Hroom Hserved) with
    (fuel := fuel) (k := 1) (st := chain_start confirmBlock) (w := w)
    as (st' & w' & Hloop).
  - intros r Hr. subst tip. cbn beta. split.
    + destruct (Z.eqb_spec (r - 1) cR) as [Heq | Hne].
      * replace r with (cR + 1) by lia. exact Hfirst.
      * apply Hnext. fold cR. lia.
    + destruct (Z.eqb_spec r cR) as [Heq | Hne]; [lia | reflexivity].
  - lia.
  - cbn [chain_start round]. apply add_exact. fold cR. int64_bounds. lia.
  - subst tip. cbn [chain_start currentBlockHash]. fold cR.
    replace (cR + 1 - 1) with cR by lia. now rewrite Z.eqb_refl.
  - exact Hfuel.
  - exists w'. unfold validateChain, bind. subst cR. now rewrite Hloop.
Qed.

(** ** The callback of a verification *)

Lemma emits_ret {A : Type} (P : event -> bool) (a : A) : emits P (ret a).
Proof. intros w. exists []. cbn. now rewrite app_nil_r. Qed.

Lemma emits_panic {A : Type} (P : event -> bool) (msg : string) :
  emits P (@panic A msg).
Proof. intros w. exists []. cbn. now rewrite app_nil_r. Qed.

Lemma emits_pending {A : Type} (P : event -> bool) : emits P (@pending A).
Proof. intros w. exists []. cbn. now rewrite app_nil_r. Qed.

Lemma emits_emit (P : event -> bool) (e : event) : P e = true -> emits P (emit e).
Proof. intros He w. exists [e]. cbn. now rewrite He. Qed.

Lemma emits_bind {A B : Type} (P : event -> bool) (c : M A) (k : A -> M B) :
  emits P c -> (forall a, emits P (k a)) -> emits P (bind c k).
Proof.
  intros Hc Hk w. unfold bind.
  destruct (Hc w) as (evs & Hevs & Hp).
  destruct (c w) as [a w1 | msg w1 | w1]; cbn in Hevs.
  - destruct (Hk a w1) as (evs' & Hevs' & Hp').
    exists (evs ++ evs')%list. rewrite Hevs', Hevs, app_assoc, forallb_app, Hp, Hp'.
    auto.
  - exists evs. auto.
  - exists evs. auto.
Qed.

Lemma emits_Ret {A : Type} (P : event -> bool) (c : M A) (a : A) (w w' : world) :
  emits P c -> c w = Ret a w' ->
  exists evs, trace w' = (trace w ++ evs)%list /\ forallb P evs = true.
Proof. intros Hc Hrun. specialize (Hc w). now rewrite Hrun in Hc. Qed.

Lemma emits_receive {S : Type} (P : event -> bool) (n : nat)
    (replies : list util.GetResponse)
    (handle : S -> util.GetResponse -> go_result S) (s : S) :
  emits P (receive n replies handle s).
Proof.
  intros w. exists []. rewrite receive_world. now rewrite app_nil_r.
Qed.

Lemma quiet_getTransactionConfirmation (numSharders : Z) (txnHash : string) :
  emits no_callback (getTransactionConfirmation numSharders txnHash).
Proof.
  unfold getTransactionConfirmation. apply emits_bind.
  - intros w. eexists. split; reflexivity.
  - intros replies. apply emits_bind; [apply emits_receive |].
    intros st. destruct (maxConfirmation st =? 0)%Z; apply emits_ret.
Qed.

Lemma quiet_getBlockInfoByRound (numSharders round : Z) (content : string) :
  emits no_callback (getBlockInfoByRound numSharders round content).
Proof.
  unfold getBlockInfoByRound. apply emits_bind.
  - intros w. eexists. split; reflexivity.
  - intros replies. apply emits_bind; [apply emits_receive |].
    intros st. destruct (maxConsensus st =? 0)%Z; apply emits_ret.
Qed.

Lemma quiet_validateChain_loop (fuel : nat) (confirmRound : Z) (st : chain_walk) :
  emits no_callback (validateChain_loop fuel confirmRound st).
Proof.
  revert st. induction fuel as [| fuel IH]; intros st; cbn [validateChain_loop].
  - apply emits_pending.
  - assert (Hfinish : forall nextBlock,
              emits no_callback
                (match extend confirmRound st nextBlock with
                 | (st', None) => validateChain_loop fuel confirmRound st'
                 | (st', Some b) => ret (b, st')
                 end)).
    { intros nextBlock. destruct (extend confirmRound st nextBlock) as [st' [b |]];
        [apply emits_ret | apply IH]. }
    apply emits_bind; [apply quiet_getBlockInfoByRound |].
    intros [nextBlock | err]; [apply Hfinish |].
    apply emits_bind; [now apply emits_emit |]. intros _.
    apply emits_bind; [apply quiet_getBlockInfoByRound |].
    intros [nextBlock | err']; [apply Hfinish |].
    apply emits_bind; [now apply emits_emit | intros _; apply IH].
Qed.

Lemma completeVerify_trace (status : Z) (out : string) (err : option string)
    (t t' : Transaction) (w w' : world) :
  completeVerify status out err t w = Ret t' w' ->
  t' = with_verify status out err t
  /\ trace w' = (trace w ++ verify_callback t')%list.
Proof.
  unfold completeVerify, verify_callback, bind, emit, ret.
  cbn [txnCb with_verify verifyStatus].
  destruct (txnCb t) as [cb |] eqn:Hcb; intros Heq; inversion Heq; subst; cbn;
    rewrite Hcb; split; try reflexivity.
  now rewrite app_nil_r.
Qed.

Lemma confirm_trace (fuel : nat) (t : Transaction) (r : confirmation_result)
    (p : pass) (w w' : world) :
  confirm fuel t r w = Ret p w' -> pass_trace t p w w'.
Proof.
  unfold confirm. intros Hrun.
  destruct (cr_block r) as [confirmBlock |]; [| discriminate].
  apply bind_Ret in Hrun as (valid & w1 & Hvalid & Hrun).
  assert (Hquiet : exists evs, trace w1 = (trace w ++ evs)%list
                               /\ forallb no_callback evs = true).
  { eapply (emits_Ret no_callback); [| exact Hvalid].
    unfold validateChain. apply emits_bind; [apply quiet_validateChain_loop |].
    intros r0. apply emits_ret. }
  destruct Hquiet as (evs & Hevs & Hp). exists evs. split; [exact Hp |].
  destruct valid.
  - destruct (json_Marshal_object (cr_confirmation r)) as [output | e] eqn:Hm;
      apply bind_Ret in Hrun as (t1 & w2 & Hc & Hret);
      apply completeVerify_trace in Hc as [Ht1 Htr];
      unfold ret in Hret; inversion Hret; subst p w2.
    + split; [left; eauto |]. now rewrite Htr, Hevs, app_assoc.
    + split; [right; eauto |]. now rewrite Htr, Hevs, app_assoc.
  - unfold ret in Hrun. inversion Hrun; subst. exact Hevs.
Qed.

Lemma give_up_or_retry_trace (t : Transaction) (lfbCreationTime tn : Z)
    (p : pass) (w w' : world) :
  give_up_or_retry t lfbCreationTime tn w = Ret p w' -> pass_trace t p w w'.
Proof.
  unfold give_up_or_retry, isTransactionExpired. intros Hrun.
  apply bind_Ret in Hrun as (expired & w1 & Hexp & Hrun).
  assert (Hquiet : exists evs, trace w1 = (trace w ++ evs)%list
                               /\ forallb no_callback evs = true).
  { eapply (emits_Ret no_callback); [| exact Hexp].
    destruct (_ >? _)%Z; [apply emits_ret |].
    apply emits_bind; [now apply emits_emit | intros _; apply emits_ret]. }
  destruct Hquiet as (evs & Hevs & Hp). exists evs. split; [exact Hp |].
  destruct expired.
  - apply bind_Ret in Hrun as (t1 & w2 & Hc & Hret).
    apply completeVerify_trace in Hc as [Ht1 Htr].
    unfold ret in Hret. inversion Hret; subst p w2.
    split; [right; eauto |]. now rewrite Htr, Hevs, app_assoc.
  - unfold ret in Hrun. inversion Hrun; subst. exact Hevs.
Qed.

Lemma pass_trace_after (t : Transaction) (p : pass) (w w1 w' : world)
    (evs : list event) :
  trace w1 = (trace w ++ evs)%list ->
  forallb no_callback evs = true ->
  pass_trace t p w1 w' ->
  pass_trace t p w w'.
Proof.
  intros Hevs Hp (evs' & Hp' & Hrest).
  exists (evs ++ evs')%list. rewrite forallb_app, Hp, Hp'. split; [reflexivity |].
  destruct p as [| t'].
  - now rewrite Hrest, Hevs, app_assoc.
  - destruct Hrest as [Hc Htr]. split; [exact Hc |].
    now rewrite Htr, Hevs, <- !app_assoc.
Qed.

Lemma verify_pass_trace (fuel : nat) (t : Transaction) (p : pass) (w w' : world) :
  verify_pass fuel t w = Ret p w' -> pass_trace t p w w'.
Proof.
  unfold verify_pass. intros Hrun.
  apply bind_Ret in Hrun as (probe & w1 & Hprobe & Hrun).
  destruct (emits_Ret no_callback _ _ _ _
              (quiet_getTransactionConfirmation 1 (txnHash t)) Hprobe)
    as (evs1 & Hevs1 & Hp1).
  apply (pass_trace_after t p w w1 w' evs1 Hevs1 Hp1).
  destruct (cr_err probe); [| now apply confirm_trace with (fuel := fuel) (r := probe)].
  apply bind_Ret in Hrun as (tn & w2 & Hnow & Hrun).
  unfold Now in Hnow. inversion Hnow; subst tn w2.
  apply (pass_trace_after t p w1 (advance ENow w1) w' [ENow]); [reflexivity .. |].
  destruct (_ <? _)%Z; [| now apply give_up_or_retry_trace in Hrun].
  apply bind_Ret in Hrun as (quorum & w3 & Hquorum & Hrun).
  destruct (emits_Ret no_callback _ _ _ _
              (quiet_getTransactionConfirmation getMinShardersVerify (txnHash t))
              Hquorum) as (evs3 & Hevs3 & Hp3).
  apply (pass_trace_after t p _ w3 w' evs3 Hevs3 Hp3).
  destruct (cr_err quorum);
    [now apply give_up_or_retry_trace in Hrun
    | now apply confirm_trace with (fuel := fuel) (r := quorum)].
Qed.

Lemma verify_loop_trace (fuel : nat) (t t' : Transaction) (w w' : world) :
  verify_loop fuel t w = Ret t' w' -> pass_trace t (Finished t') w w'.
Proof.
  revert w. induction fuel as [| fuel IH]; intros w Hrun;
    cbn [verify_loop] in Hrun; [discriminate |].
  apply bind_Ret in Hrun as (p & w1 & Hpass & Hrun).
  apply verify_pass_trace in Hpass.
  destruct p as [| t1].
  - destruct Hpass as (evs & Hp & Hevs).
    apply (pass_trace_after t (Finished t') w w1 w' evs Hevs Hp). now apply IH.
  - unfold ret in Hrun. inversion Hrun; subst. exact Hpass.
Qed.

(** X11. When the loop of [Verify] returns, [OnVerifyComplete] has been
    called exactly once on the handle's callback, as the last thing the loop
    did and with the final verify status; nothing else the loop did was a
    callback. A handle without callback sees none. *)
Theorem verify_loop_calls_back_once (fuel : nat) (t t' : Transaction)
    (w w' : world) :
  verify_loop fuel t w = Ret t' w' ->
  exists evs,
    trace w' = (trace w ++ evs ++ verify_callback t')%list
    /\ forallb no_callback evs = true
    /\ txnCb t' = txnCb t
    /\ verify_callback t'
       = match txnCb t with
         | Some cb => [EOnVerifyComplete cb (verifyStatus t')]
         | None => []
         end.
Proof.
  intros Hrun. apply verify_loop_trace in Hrun as (evs & Hp & Hc & Htr).
  exists evs. split; [exact Htr |]. split; [exact Hp |].
  assert (Hcb : txnCb t' = txnCb t).
  { destruct Hc as [(out & m & _ & ->) | (err & _ & ->)]; reflexivity. }
  split; [exact Hcb |]. unfold verify_callback. now rewrite Hcb.
Qed.

(** X12. When the loop of [Verify] returns, only the three verify fields of
    the handle have changed: to [StatusSuccess], the encoded answer and no
    error, or to [StatusError], an empty output and the loop's error. Either
    way [GetVerifyError] then returns a text and does not panic. *)
Theorem verify_loop_leaves_handle_readable (fuel : nat) (t t' : Transaction)
    (w w' : world) :
  verify_loop fuel t w = Ret t' w' ->
  completes t t'
  /\ t' = with_verify (verifyStatus t') (verifyOut t') (verifyError t') t
  /\ exists msg, GetVerifyError t' = Returned msg.
Proof.
  intros Hrun. apply verify_loop_trace in Hrun as (evs & _ & Hc & _).
  split; [exact Hc |].
  destruct Hc as [(out & m & _ & ->) | (err & Herr & ->)].
  - split; [reflexivity |]. unfold GetVerifyError. cbn [verifyStatus with_verify].
    rewrite Z.eqb_refl. eauto.
  - split; [reflexivity |]. unfold GetVerifyError.
    cbn [verifyStatus verifyError with_verify].
    destruct (negb _); [| eauto].
    destruct Herr as [-> | ->]; cbn; eauto.
Qed.

End MoreProofs.

(** ** The further properties at work in the small world *)

Ltac run_in_demo c :=
  let Hrun := fresh "Hrun" in
  destruct c as [? ? | ? ? | ?] eqn:Hrun;
  [| exfalso; vm_compute in Hrun; discriminate Hrun
   | exfalso; vm_compute in Hrun; discriminate Hrun].

Lemma inclusion_checked_in_demo :
  exists (cfmLfb : gmap string string) (raw : string) (cfm : confirmation.t)
         (cfmTxn : transaction.Transaction),
    json_Marshal_object (Some cfmLfb) = Ok "answer: T confirmed"
    /\ cfmLfb !! "confirmation" = Some raw
    /\ json_Unmarshal_confirmation raw = Ok cfm
    /\ confirmation.Transaction cfm = Some cfmTxn
    /\ confirmation_checks "T" cfm cfmTxn.
Proof.
  eapply (verify_success_only_after_inclusion_checked 10 (demo.handle "T" 0)
            (with_verify 0 "answer: T confirmed" None (demo.handle "T" 0))
            demo.start).
  - cbn. lia.
  - vm_compute. reflexivity.
  - reflexivity.
Defined.

Lemma winner_in_demo :
  exists r w',
    getTransactionConfirmation 3 "T" demo.start = Ret r w'
    /\ cr_block r = Some (confirmation_header (demo.cfm (Some (demo.entity "T"))))
    /\ 0 < votes_for "T" demo.hash7
             (take 3 (sharders_reply 0 3 (confirmation_query "T")))
    /\ votes_for "T" "another block"
         (take 3 (sharders_reply 0 3 (confirmation_query "T")))
       <= votes_for "T" demo.hash7
            (take 3 (sharders_reply 0 3 (confirmation_query "T"))).
Proof.
  run_in_demo (getTransactionConfirmation 3 "T" demo.start).
  assert (Hblock : cr_block a
                   = Some (confirmation_header (demo.cfm (Some (demo.entity "T"))))).
  { vm_compute in Hrun. inversion Hrun. reflexivity. }
  exists a, w. split; [reflexivity |]. split; [exact Hblock |].
  destruct (confirmation_winner_has_most_votes 3 "T" a _ demo.start w Hrun Hblock)
    as (_ & Hpos & Hmost).
  split; [exact Hpos | exact (Hmost "another block")].
Defined.

Lemma not_found_in_demo :
  exists r w',
    getTransactionConfirmation 3 "U" demo.start = Ret r w'
    /\ cr_err r = Some "transaction not found"
    /\ cr_block r = None.
Proof.
  run_in_demo (getTransactionConfirmation 3 "U" demo.start).
  exists a, w. split; [reflexivity |].
  apply (confirmation_found_iff_valid_answer 3 "U" a demo.start w Hrun).
  intros rsp Hin. vm_compute in Hin.
  destruct Hin as [<- | [<- | [<- | []]]]; vm_compute; reflexivity.
Defined.

(** A header is found for round 8; none is when the answer holds a null
    header, even next to a hash. *)
Lemma round_info_in_demo :
  (exists res w',
     getBlockInfoByRound 1 8 "header" demo.start = Ret res w'
     /\ (exists header, res = Ok header)
     /\ w' = advance (EQuery 1 (round_query 8 "header")) demo.start)
  /\ (exists res w',
        @getBlockInfoByRound (bench.tuned 3 bench.always_null_header)
          1 8 "header" demo.start = Ret res w'
        /\ res = Err "round info not found.").
Proof.
  split.
  - run_in_demo (getBlockInfoByRound 1 8 "header" demo.start).
    exists a, w. split; [reflexivity |].
    destruct (round_info_found_iff_vote 1 8 "header" a demo.start w Hrun)
      as (_ & Hfound & Hworld).
    split; [| exact Hworld].
    apply Hfound. exists (demo.answer 200 "answer: round 8").
    split; [vm_compute; auto | vm_compute; discriminate].
  - run_in_demo (@getBlockInfoByRound (bench.tuned 3 bench.always_null_header)
                   1 8 "header" demo.start).
    exists a, w. split; [reflexivity |].
    destruct (@round_info_found_iff_vote (bench.tuned 3 bench.always_null_header)
                1 8 "header" a demo.start w Hrun) as (Hnone & _ & _).
    apply Hnone. intros rsp [<- | []]. vm_compute. reflexivity.
Defined.

Lemma never_false_in_demo :
  exists b w', validateChain 10 demo.header7 demo.start = Ret b w' /\ b = true.
Proof.
  run_in_demo (validateChain 10 demo.header7 demo.start).
  exists a, w. split; [reflexivity |].
  apply (validateChain_never_false_without_overflow 10 demo.header7 a demo.start w);
    [vm_compute; split; discriminate | vm_compute; split; discriminate
    | vm_compute; discriminate | exact Hrun].
Defined.

Lemma false_at_last_round_in_demo :
  exists b w',
    @validateChain (bench.tuned 3 bench.always_block8) 10 bench.last_round demo.start
    = Ret b w'
    /\ b = false.
Proof.
  run_in_demo (@validateChain (bench.tuned 3 bench.always_block8) 10
                 bench.last_round demo.start).
  exists a, w. split; [reflexivity |].
  apply (@validateChain_false_at_last_round (bench.tuned 3 bench.always_block8)
           10 bench.last_round a demo.start w); [reflexivity | exact Hrun].
Defined.


Lemma served_in_demo :
  exists w', validateChain 2 demo.header7 demo.start = Ret true w'.
Proof.
  apply (validateChain_succeeds_when_served 2 demo.header7
           (fun r => if (r =? 8)%Z then demo.header8 else demo.header9)).
  - vm_compute. split; discriminate.
  - vm_compute. split; discriminate.
  - vm_compute. discriminate.
  - vm_compute. discriminate.
  - intros r w0 Hr. cbn in Hr.
    assert (Hcases : r = 8 \/ r = 9) by lia.
    destruct Hcases as [-> | ->]; eexists; vm_compute; reflexivity.
  - vm_compute. reflexivity.
  - intros r Hr. cbn in Hr. assert (r = 9) as -> by lia. vm_compute. reflexivity.
  - vm_compute. lia.
Defined.

Lemma failed_submission_in_demo :
  exists t' w',
    Verify bench.failed_handle demo.start = Ret (None, t', true) w'
    /\ txnHash t' = ""
    /\ exists rest,
         trace (final_world (verify_pass 3 t' w'))
         = (trace w' ++ EQuery 1 (confirmation_query "") :: rest)%list.
Proof.
  apply (Verify_after_failed_submission 3 bench.failed_handle demo.start);
    [reflexivity | vm_compute; discriminate | vm_compute; discriminate].
Defined.

Lemma calls_back_once_in_demo :
  exists t' w' evs,
    verify_loop 10 (demo.handle "T" 0) demo.start = Ret t' w'
    /\ trace w' = (evs ++ [EOnVerifyComplete 1%nat StatusSuccess])%list
    /\ forallb no_callback evs = true.
Proof.
  run_in_demo (verify_loop 10 (demo.handle "T" 0) demo.start).
  destruct (verify_loop_calls_back_once 10 (demo.handle "T" 0) a demo.start w Hrun)
    as (evs & Htrace & Hquiet & _ & Hcb).
  exists a, w, evs. split; [reflexivity |]. split; [| exact Hquiet].
  rewrite Htrace, Hcb. cbn [demo.handle txnCb demo.start trace app].
  vm_compute in Hrun. inversion Hrun. reflexivity.
Defined.

Lemma readable_in_demo :
  exists t' w',
    verify_loop 10 (demo.handle "T" 0) demo.start = Ret t' w'
    /\ exists msg, GetVerifyError t' = Returned msg.
Proof.
  run_in_demo (verify_loop 10 (demo.handle "T" 0) demo.start).
  exists a, w. split; [reflexivity |].
  apply (verify_loop_leaves_handle_readable 10 (demo.handle "T" 0) a demo.start w Hrun).
Defined.

Lemma escalated_pass_in_demo :
  exists w', verify_pass 10 demo.young_handle demo.start = Ret Again w'.
Proof.
  eexists.
  eapply (escalated_pass_never_fails 10 demo.young_handle demo.start).
  - vm_compute. reflexivity.
  - discriminate.
  - vm_compute. reflexivity.
  - vm_compute. reflexivity.
  - discriminate.
Defined.

Lemma panics_in_demo :
  @verify_loop (bench.tuned 3 bench.always_without_txn) 1 (demo.handle "T" 0) demo.start
  = Panic nil_dereference
      (advance (EQuery 1 (@confirmation_query (bench.tuned 3 bench.always_without_txn) "T"))
         demo.start).
Proof.
  eapply (@verify_loop_panics_on_confirmation_without_txn
            (bench.tuned 3 bench.always_without_txn) 0 (demo.handle "T" 0) demo.start
            (demo.answer 200 "answer: confirmation without txn") []
            (<["confirmation" := "confirmation without txn"]> ∅)
            "confirmation without txn" (demo.cfm None));
    reflexivity.
Defined.

Lemma waits_in_demo :
  (forall r w',
      @getTransactionConfirmation (bench.tuned 3 bench.silent) 1 "T" demo.start
      <> Ret r w')
  /\ (forall r w',
        @getBlockInfoByRound (bench.tuned 3 bench.silent) 1 8 "header" demo.start
        <> Ret r w').
Proof.
  destruct (@queries_wait_for_every_answer (bench.tuned 3 bench.silent)
              1 8 "T" "header" demo.start) as [Hconf Hround].
  split; [apply Hconf | apply Hround]; vm_compute; lia.
Defined.

(** The reader on the confirmation of [T], and on an answer without one. *)
Lemma checks_in_demo :
  getBlockHeaderFromTransactionConfirmation "T"
    (<["confirmation" := "confirmation of T"]> ∅)
  = Returned (Ok (confirmation_header (demo.cfm (Some (demo.entity "T")))))
  /\ exists msg,
       getBlockHeaderFromTransactionConfirmation "another transaction"
         (<["confirmation" := "confirmation of T"]> ∅)
       = Returned (Err msg).
Proof.
  split.
  - apply (getBlockHeader_iff_checks "T" "confirmation of T"
             (<["confirmation" := "confirmation of T"]> ∅)
             (demo.cfm (Some (demo.entity "T"))) (demo.entity "T"));
      [reflexivity | reflexivity | reflexivity |].
    vm_compute. repeat split.
  - apply (getBlockHeader_iff_checks "another transaction" "confirmation of T"
             (<["confirmation" := "confirmation of T"]> ∅)
             (demo.cfm (Some (demo.entity "T"))) (demo.entity "T"));
      [reflexivity | reflexivity | reflexivity |].
    intros (Hhash & _). vm_compute in Hhash. discriminate Hhash.
Defined.

Lemma absent_in_demo :
  exists msg,
    getBlockHeaderFromTransactionConfirmation "T"
      (<["latest_finalized_block" := "block 12"]> ∅)
    = Returned (Err msg).
Proof.
  apply (getBlockHeader_absent_or_undecoded "T"
           (<["latest_finalized_block" := "block 12"]> ∅)).
  left. reflexivity.
Defined.

(** * The broadcast to the miners *)

Section BroadcastProofs.

Context `{Externals} `{Miners}.

Lemma countResponse_tally (seen : list PostResponse.t) (rsp : PostResponse.t) :
  countResponse (tally seen) (Some rsp) = Returned (tally (seen ++ [rsp])).
Proof.
  unfold countResponse, tally, last_body, refuses.
  rewrite !List.filter_app. cbn [List.filter].
  change (PostResponse.StatusCode rsp =? http.StatusOK)%Z with (accepts rsp).
  destruct (accepts rsp); cbn [negb consensus tSuccessRsp tFailureRsp].
  - rewrite last_snoc, length_app, app_nil_r. cbn [length].
    rewrite Nat.add_1_r. reflexivity.
  - rewrite last_snoc, !app_nil_r. reflexivity.
Qed.

(** When every sampled miner's response arrives, the loop ends with the
    tally of the responses. *)
Lemma receive_post_tally (rs : list PostResponse.t) :
  forall (seen : list PostResponse.t) (more : list (option PostResponse.t))
         (w : world),
    receive_post (length rs) ((Some <$> rs) ++ more)%list countResponse (tally seen) w
    = Ret (tally (seen ++ rs)) w.
Proof.
  induction rs as [| rsp rs IH]; intros seen more w.
  - cbn. now rewrite app_nil_r.
  - cbn [length fmap list_fmap app receive_post].
    rewrite countResponse_tally, IH, <- app_assoc. reflexivity.
Qed.

(** When a response is missing, the loop waits for it. *)
Lemma receive_post_short (rs : list PostResponse.t) :
  forall (n : nat) (seen : list PostResponse.t) (w : world),
    (length rs < n)%nat ->
    receive_post n (Some <$> rs) countResponse (tally seen) w = Pending w.
Proof.
  induction rs as [| rsp rs IH]; intros n seen w Hn;
    (destruct n as [| n]; [cbn in Hn; lia |]).
  - reflexivity.
  - cbn [fmap list_fmap receive_post].
    rewrite countResponse_tally. apply IH. cbn in Hn. lia.
Qed.

Lemma submitTxn_unfold (t : Transaction) (w : world) :
  snd (signed_entity t) = None ->
  submitTxn t w
  = (st <- receive_post (length (sampled w)) (arrivals t w) countResponse (tally []) ;;
     if float32.ltb
          (float32.div (float32.mul (consensus st) (float32.of_int 100))
             (float32.of_int (Z.of_nat (length (sampled w)))))
          consensusThresh
     then
       completeTxn StatusError ""
         (Some ("submit transaction failed. " +:+ tFailureRsp st)) (posted t)
     else
       Sleep (3 * Second) ;;
       completeTxn StatusSuccess (tSuccessRsp st) None (posted t))
      (advance (EPost (sampled w)) w).
Proof.
  intros Hsigned.
  assert (Htext : forall st,
            fmt.Sprintf "submit transaction failed. %s" [fmt.OString (tFailureRsp st)]
            = "submit transaction failed. " +:+ tFailureRsp st).
  { intros st. cbn [fmt.Sprintf fmt.verb_s fmt.extra].
    now rewrite append_empty_r. }
  unfold submitTxn, posted, arrivals, signed_entity in *.
  cbn [txn with_submission] in *.
  destruct (String.eqb (transaction.Signature (txn t)) "").
  - rewrite Hsigned. unfold bind at 1, postToMiners. cbn [fst snd txn with_txn].
    unfold bind at 1 3. unfold sampled.
    destruct (receive_post _ _ _ _ _) as [st w1 | |]; [| reflexivity | reflexivity].
    now rewrite Htext.
  - unfold bind at 1, postToMiners. cbn [fst snd txn with_submission].
    unfold bind at 1 3. unfold sampled.
    destruct (receive_post _ _ _ _ _) as [st w1 | |]; [| reflexivity | reflexivity].
    rewrite Htext. reflexivity.
Qed.

Lemma completeTxn_run (status : Z) (out : string) (err : option string)
    (t : Transaction) (w : world) :
  exists w',
    completeTxn status out err t w = Ret (with_submission status out err t) w'
    /\ trace w' = (trace w ++ txn_callback (with_submission status out err t))%list.
Proof.
  unfold completeTxn, txn_callback, bind, emit, ret.
  destruct (txnCb (with_submission status out err t)) as [cb |].
  - eexists. split; reflexivity.
  - eexists. split; [reflexivity |]. cbn. now rewrite app_nil_r.
Qed.

(** C4. When at least one miner was sampled and a response of each sampled
    miner arrives, [submitTxn] completes with [StatusSuccess] exactly when
    the percentage it computes in [float32] - a counter incremented for each
    response of status 200, times 100, divided by the number of miners - is
    not less than [consensusThresh]; the output is then the body of the last
    response of status 200. Otherwise it completes with [StatusError], no
    output, and an error that carries the body of the last response of
    another status. Either way the callback is told once, after the post and,
    on success, a sleep of three seconds. *)
Theorem submitTxn_succeeds_iff_float32_rate (t : Transaction)
    (rs : list PostResponse.t) (w : world) :
  StatusSuccess <> StatusError ->
  snd (signed_entity t) = None ->
  sampled w <> [] ->
  length rs = length (sampled w) ->
  take (length (sampled w)) (arrivals t w) = Some <$> rs ->
  exists t' w',
    submitTxn t w = Ret t' w'
    /\ (txnStatus t' = StatusSuccess
        <-> float32.ltb
              (float32_percentage (length (List.filter accepts rs))
                 (length (sampled w)))
              consensusThresh = false)
    /\ (txnStatus t' = StatusSuccess ->
        t' = with_submission StatusSuccess (last_body accepts rs) None (posted t)
        /\ trace w'
           = (trace w ++ [EPost (sampled w); ESleep (3 * Second)]
                ++ txn_callback t')%list)
    /\ (txnStatus t' <> StatusSuccess ->
        t' = with_submission StatusError ""
               (Some ("submit transaction failed. " +:+ last_body refuses rs))
               (posted t)
        /\ trace w' = (trace w ++ [EPost (sampled w)] ++ txn_callback t')%list).
Proof.
  intros Hdistinct Hsigned _ Hlen Htake.
  rewrite (submitTxn_unfold t w Hsigned).
  rewrite <- (take_drop (length (sampled w)) (arrivals t w)), Htake, <- Hlen.
  unfold bind at 1. rewrite (receive_post_tally rs [] _ _). cbn [app].
  cbn [tally consensus tSuccessRsp tFailureRsp]. rewrite Hlen.
  fold (float32_percentage (length (List.filter accepts rs)) (length (sampled w))).
  destruct (float32.ltb _ consensusThresh) eqn:Hrate.
  - destruct (completeTxn_run StatusError ""
                (Some ("submit transaction failed. " +:+ last_body refuses rs))
                (posted t) (advance (EPost (sampled w)) w)) as (w' & Hrun & Htrace).
    eexists; exists w'. split; [exact Hrun |].
    cbn [txnStatus with_submission].
    split; [split; [intros Heq; now symmetry in Heq | discriminate] |].
    split; [intros Heq; now symmetry in Heq |].
    intros _. split; [reflexivity |].
    rewrite Htrace. cbn [advance trace]. now rewrite <- app_assoc.
  - unfold bind, Sleep, emit.
    destruct (completeTxn_run StatusSuccess (last_body accepts rs) None
                (posted t)
                (advance (ESleep (3 * Second)) (advance (EPost (sampled w)) w)))
      as (w' & Hrun & Htrace).
    eexists; exists w'. split; [exact Hrun |].
    cbn [txnStatus with_submission].
    split; [split; reflexivity |].
    split; [| intros Hne; now contradiction Hne].
    intros _. split; [reflexivity |].
    rewrite Htrace. cbn [advance trace]. now rewrite <- !app_assoc.
Qed.

(** X20. When no miner is sampled, [submitTxn] posts to nobody, sleeps its
    three seconds and completes with [StatusSuccess] and an empty output,
    whatever the threshold: the rate is 0 * 100 / 0, which is not a number,
    and no comparison with it holds. *)
Theorem submitTxn_succeeds_without_miners (t : Transaction) (w : world) :
  snd (signed_entity t) = None ->
  sampled w = [] ->
  exists w',
    submitTxn t w = Ret (with_submission StatusSuccess "" None (posted t)) w'
    /\ trace w'
       = (trace w ++ [EPost []; ESleep (3 * Second)]
            ++ txn_callback (with_submission StatusSuccess "" None (posted t)))%list.
Proof.
  intros Hsigned Hnone.
  rewrite (submitTxn_unfold t w Hsigned), Hnone.
  unfold bind at 1. cbn [length receive_post ret tally consensus tSuccessRsp
                           List.filter float32_count Nat.iter last_body last].
  replace (float32.ltb _ consensusThresh) with false
    by (destruct consensusThresh; reflexivity).
  unfold bind, Sleep, emit.
  destruct (completeTxn_run StatusSuccess "" None (posted t)
              (advance (ESleep (3 * Second)) (advance (EPost []) w)))
    as (w' & Hrun & Htrace).
  exists w'. split; [exact Hrun |].
  rewrite Htrace. cbn [advance trace]. now rewrite <- !app_assoc.
Qed.

(** X21. When fewer responses arrive than miners were sampled - a miner for
    which no request could be made sends nothing - [submitTxn] never
    completes: it waits for the missing response, and the callback is not
    told. *)
Theorem submitTxn_waits_for_missing_response (t : Transaction)
    (rs : list PostResponse.t) (w : world) :
  snd (signed_entity t) = None ->
  arrivals t w = Some <$> rs ->
  (length rs < length (sampled w))%nat ->
  submitTxn t w = Pending (advance (EPost (sampled w)) w).
Proof.
  intros Hsigned Harrive Hshort.
  rewrite (submitTxn_unfold t w Hsigned), Harrive.
  unfold bind at 1. now rewrite (receive_post_short rs _ [] _ Hshort).
Qed.

(** X22. When the entity has no signature and signing it fails,
    [submitTxn] posts nothing: it completes with [StatusError], no output,
    and the error of the signing. *)
Theorem submitTxn_reports_signing_error (t : Transaction) (err : string)
    (w : world) :
  transaction.Signature (txn t) = "" ->
  snd (transaction_ComputeHashAndSign (txn t)) = Some err ->
  exists w',
    submitTxn t w = Ret (with_submission StatusError "" (Some err) (posted t)) w'
    /\ trace w'
       = (trace w
            ++ txn_callback (with_submission StatusError "" (Some err) (posted t)))%list.
Proof.
  intros Hnone Herr. unfold submitTxn, posted, signed_entity.
  cbn [txn with_submission]. rewrite Hnone. cbn [String.eqb]. rewrite Herr.
  apply completeTxn_run.
Qed.

End BroadcastProofs.

(** ** The broadcast in the small world *)

(** Four miners of five take the transaction and the threshold is 60: the
    submission succeeds with the body of the last of them. *)
Lemma submitTxn_in_demo :
  exists t' w',
    @submitTxn demo.externals
      (bench.miners (float32.of_int 60) bench.five (Some <$> bench.four_of_five))
      bench.fresh_handle demo.start = Ret t' w'
    /\ (txnStatus t' = 0
        <-> float32.ltb (float32_percentage 4 5) (float32.of_int 60) = false)
    /\ (txnStatus t' = 0 ->
        t' = with_submission 0 "answer: submitted T" None bench.fresh_handle
        /\ trace w'
           = [EPost bench.five; ESleep 3000000000; EOnTransactionComplete 1%nat 0])
    /\ (txnStatus t' <> 0 ->
        t' = with_submission 2 "" (Some "submit transaction failed. pool is full")
               bench.fresh_handle
        /\ trace w' = [EPost bench.five; EOnTransactionComplete 1%nat 2]).
Proof.
  destruct (@submitTxn_succeeds_iff_float32_rate demo.externals
              (bench.miners (float32.of_int 60) bench.five
                 (Some <$> bench.four_of_five))
              bench.fresh_handle bench.four_of_five demo.start)
    as (t' & w' & Hrun & Hiff & Hyes & Hno);
    [cbn; lia | reflexivity | discriminate | reflexivity | reflexivity |].
  exists t', w'. split; [exact Hrun |]. split; [exact Hiff |].
  split.
  - intros Hs. destruct (Hyes Hs) as [Ht Htrace]. split; [exact Ht |].
    rewrite Htrace, Ht. reflexivity.
  - intros Hs. destruct (Hno Hs) as [Ht Htrace]. split; [exact Ht |].
    rewrite Htrace, Ht. reflexivity.
Defined.

(** Two miners of five take it: the submission fails with the body of the
    last refusal. *)
Lemma submitTxn_fails_in_demo :
  exists w',
    @submitTxn demo.externals
      (bench.miners (float32.of_int 60) bench.five (Some <$> bench.two_of_five))
      bench.fresh_handle demo.start
    = Ret (with_submission 2 "" (Some "submit transaction failed. pool is full")
             bench.fresh_handle) w'.
Proof. eexists. vm_compute. reflexivity. Qed.

(** Three miners of seven take the transaction, 300 / 7 = 42.857142..., and
    the threshold is the [float32] next above, 42.857143...: the exact
    percentage is below the threshold, yet the submission succeeds, for the
    quotient computed in [float32] is the threshold itself. And with no
    miner sampled the submission succeeds without a single response. *)
Lemma submitTxn_succeeds_below_threshold :
  (length (List.filter accepts bench.three_of_seven) = 3%nat
   /\ length bench.three_of_seven = 7%nat
   /\ percentage_below 3 7 bench.above_three_sevenths
   /\ float32_percentage 3 7 = bench.above_three_sevenths
   /\ exists w',
        @submitTxn demo.externals
          (bench.miners bench.above_three_sevenths bench.seven
             (Some <$> bench.three_of_seven))
          bench.fresh_handle demo.start
        = Ret (with_submission 0 "answer: submitted T" None bench.fresh_handle) w')
  /\ exists w',
       @submitTxn demo.externals (bench.miners (float32.of_int 60) [] [])
         bench.fresh_handle demo.start
       = Ret (with_submission 0 "" None bench.fresh_handle) w'.
Proof.
  split.
  - split; [reflexivity |]. split; [reflexivity |].
    split; [vm_compute; reflexivity |]. split; [vm_compute; reflexivity |].
    eexists. vm_compute. reflexivity.
  - eexists. vm_compute. reflexivity.
Qed.

Lemma without_miners_in_demo :
  exists w',
    @submitTxn demo.externals (bench.miners (float32.of_int 60) [] [])
      bench.fresh_handle demo.start
    = Ret (with_submission 0 "" None bench.fresh_handle) w'
    /\ trace w' = [EPost []; ESleep 3000000000; EOnTransactionComplete 1%nat 0].
Proof.
  apply (@submitTxn_succeeds_without_miners demo.externals
           (bench.miners (float32.of_int 60) [] []) bench.fresh_handle demo.start);
    reflexivity.
Defined.

Lemma missing_response_in_demo :
  @submitTxn demo.externals
    (bench.miners (float32.of_int 60) bench.five
       (Some <$> [bench.taken; bench.taken]))
    bench.fresh_handle demo.start
  = Pending (advance (EPost bench.five) demo.start).
Proof.
  apply (@submitTxn_waits_for_missing_response demo.externals
           (bench.miners (float32.of_int 60) bench.five
              (Some <$> [bench.taken; bench.taken]))
           bench.fresh_handle [bench.taken; bench.taken] demo.start);
    [reflexivity | reflexivity | cbn; lia].
Defined.

Lemma signing_error_in_demo :
  exists w',
    @submitTxn demo.externals bench.no_key bench.unsigned_handle demo.start
    = Ret (with_submission 2 "" (Some "no private key") bench.unsigned_handle) w'
    /\ trace w' = [EOnTransactionComplete 1%nat 2].
Proof.
  apply (@submitTxn_reports_signing_error demo.externals bench.no_key
           bench.unsigned_handle "no private key" demo.start); reflexivity.
Defined.
